(** * KisanSaathi crop recommendation: [predict.py] and [predict_wrapper.py]

    A shallow embedding of the two inference entry points of
    [Crop-Recommendation-System]: [predict_top3] (called by the form UI in
    [app.py]) and the command-line adapter [predict] with its module-level
    model load.

    The classifier is an opaque collaborator: a record with the class list
    [classes_] and the function [predict_proba].  Numbers are IEEE 754
    binary64 values (NumPy's [float64], Python's [float]) in the
    representation of the standard library's [SpecFloat]; strings are
    sequences of code points below 256. *)

From Stdlib Require Import ZArith Lia List Bool String Ascii Permutation Sorted.
From Stdlib Require Import Floats.SpecFloat DecimalString.
Import ListNotations.

Open Scope string_scope.
Open Scope list_scope.
Open Scope Z_scope.

(** ** binary64 *)

Module F64.

Definition prec : Z := 53.
Definition emax : Z := 1024.

Definition float64 : Type := spec_float.

(** A value of the format: the mantissa is canonical for its exponent. *)
Definition is_float64 (x : float64) : Prop := valid_binary prec emax x = true.

Definition mul : float64 -> float64 -> float64 := SFmul prec emax.
Definition div : float64 -> float64 -> float64 := SFdiv prec emax.
Definition ltb : float64 -> float64 -> bool := SFltb.
Definition leb : float64 -> float64 -> bool := SFleb.
Definition eqb : float64 -> float64 -> bool := SFeqb.

(** Conversion of an integer, rounding to nearest even. *)
Definition of_Z (z : Z) : float64 := binary_normalize prec emax z 0 false.

Definition is_nan (x : float64) : bool :=
  match x with S754_nan => true | _ => false end.

Definition is_finite (x : float64) : bool :=
  match x with S754_zero _ | S754_finite _ _ _ => true | _ => false end.

(** C's [rint] in the default rounding mode: the nearest integer, ties to
    even, the sign kept on a zero result. *)
Definition rint (x : float64) : float64 :=
  match x with
  | S754_finite s m e =>
      if 0 <=? e then x
      else
        let '(mrs, _) := shr (shr_record_of_loc (Zpos m) loc_Exact) e (- e) in
        let k := round_nearest_even (shr_m mrs) (loc_of_shr_record mrs) in
        binary_normalize prec emax (cond_Zopp s k) 0 s
  | _ => x
  end.

(** The value [(-1)^s * m * 10^x] of a decimal literal, correctly rounded. *)
Definition of_decimal (s : bool) (m : Z) (x : Z) : float64 :=
  match m with
  | Zpos p =>
      if 0 <=? x then binary_normalize prec emax (cond_Zopp s (m * 10 ^ x)) 0 s
      else
        let '(q, e, l) := SFdiv_core_binary prec emax m 0 (10 ^ (- x)) 0 in
        binary_round_aux prec emax s q e l
  | _ => S754_zero s
  end.

End F64.

Export F64.

(** ** Exceptions *)

(** What [str(e)] and the [except] clauses of the source can tell apart: a
    [ValueError] raised by the source or a builtin, and any other [Exception]
    raised inside a library call. *)
Inductive exn : Type :=
| ValueError (msg : string)
| LibraryError (msg : string).

Definition str_exn (e : exn) : string :=
  match e with ValueError msg | LibraryError msg => msg end.

Inductive result (A : Type) : Type :=
| Ok (a : A)
| Raise (e : exn).

Arguments Ok {A} a.
Arguments Raise {A} e.

Definition bind {A B : Type} (r : result A) (k : A -> result B) : result B :=
  match r with
  | Ok a => k a
  | Raise e => Raise e
  end.

Declare Scope py_scope.
Delimit Scope py_scope with py.
Notation "x <- c ;; k" := (bind c (fun x => k))
  (at level 61, c at next level, right associativity) : py_scope.

(** A list comprehension whose element expression can raise: the first
    failure, left to right, ends it. *)
Fixpoint map_result {A B : Type} (f : A -> result B) (l : list A) : result (list B) :=
  match l with
  | [] => Ok []
  | a :: l' =>
      match f a with
      | Raise e => Raise e
      | Ok b =>
          match map_result f l' with
          | Raise e => Raise e
          | Ok bs => Ok (b :: bs)
          end
      end
  end.

(** ** [sorted] *)

Section Sorted.

Context {A K : Type}.
Variable lt : K -> K -> bool.
Variable key : A -> K.
Variable ordered : K -> Prop.

(** One step of the insertion sort [list.sort] runs on short lists: [x]
    goes in front of the first element whose key is greater, so behind
    every element with an equal key.  Only [<] is used on keys. *)
Fixpoint insert (x : A) (l : list A) : list A :=
  match l with
  | [] => [x]
  | y :: l' => if lt (key x) (key y) then x :: l else y :: insert x l'
  end.

Definition sort_ascending (l : list A) : list A :=
  fold_left (fun acc x => insert x acc) l [].

(** [sorted(l, key=key, reverse=reverse)].  With [reverse=True] the list is
    reversed, sorted in ascending order and reversed again.  This is
    [list.sort] for keys that [<] orders totally, where every stable sort
    gives the same list; with a NaN among the keys [list.sort] goes by the
    runs it finds, and the statements below that fix an order take keys
    that are no NaN. *)
Definition sorted (reverse : bool) (l : list A) : list A :=
  if reverse then rev (sort_ascending (rev l)) else sort_ascending l.

(** [k] and [k'] compare equal. *)
Definition same_key (k k' : K) : bool := negb (lt k k') && negb (lt k' k).

(** No element is less than an earlier one. *)
Definition ascending : list A -> Prop :=
  StronglySorted (fun x y => lt (key y) (key x) = false).

(** No element is less than a later one. *)
Definition descending : list A -> Prop :=
  StronglySorted (fun x y => lt (key x) (key y) = false).

(** Every key of the list is one the order is total on. *)
Definition all_ordered (l : list A) : Prop := Forall (fun a => ordered (key a)) l.

End Sorted.

(** ** [round] on a NumPy [float64] *)

Definition power_of_ten (n : Z) : float64 := of_Z (10 ^ n).

(** [round(x, ndigits)] for [x] a [numpy.float64]: scale by a power of ten,
    [rint], scale back. *)
Definition round (x : float64) (ndigits : Z) : float64 :=
  if 0 <=? ndigits then
    if ndigits =? 0 then rint x
    else let f := power_of_ten ndigits in div (rint (mul x f)) f
  else
    let f := power_of_ten (- ndigits) in mul (rint (div x f)) f.

(** ** Strings *)

Definition ord (c : ascii) : Z := Z.of_N (N_of_ascii c).
Definition chr (n : Z) : ascii := ascii_of_N (Z.to_N n).

Definition is_digit (c : ascii) : bool := (48 <=? ord c) && (ord c <=? 57).
Definition digit_value (c : ascii) : Z := ord c - 48.

(** [Py_ISSPACE]: the ASCII white space. *)
Definition Py_ISSPACE (c : ascii) : bool :=
  ((9 <=? ord c) && (ord c <=? 13)) || (ord c =? 32).

(** [Py_UNICODE_ISSPACE] on the code points from 127 to 255. *)
Definition Py_UNICODE_ISSPACE (c : ascii) : bool :=
  (ord c =? 133) || (ord c =? 160).

Definition Py_TOLOWER (c : ascii) : ascii :=
  if (65 <=? ord c) && (ord c <=? 90) then chr (ord c + 32) else c.

Definition hex_digit (n : Z) : ascii :=
  if n <? 10 then chr (48 + n) else chr (87 + n).

Definition str_of_nat (n : nat) : string :=
  NilZero.string_of_uint (Nat.to_uint n).

(** *** [repr] of a [str] *)

Definition quote_char : ascii := "039"%char.
Definition dquote_char : ascii := "034"%char.
Definition backslash : ascii := "092"%char.

(** [str.isprintable] on one code point below 256. *)
Definition is_printable (c : ascii) : bool :=
  let n := ord c in
  ((32 <=? n) && (n <? 127)) || ((161 <=? n) && negb (n =? 173)).

Definition repr_char (q : ascii) (c : ascii) : list ascii :=
  if Ascii.eqb c q || Ascii.eqb c backslash then [backslash; c]
  else if ord c =? 9 then [backslash; "t"%char]
  else if ord c =? 10 then [backslash; "n"%char]
  else if ord c =? 13 then [backslash; "r"%char]
  else if is_printable c then [c]
  else [backslash; "x"%char; hex_digit (ord c / 16); hex_digit (ord c mod 16)].

(** [repr(s)]: single quotes, unless [s] holds a single quote and no double
    quote. *)
Definition repr (s : string) : string :=
  let l := list_ascii_of_string s in
  let q :=
    if existsb (Ascii.eqb quote_char) l && negb (existsb (Ascii.eqb dquote_char) l)
    then dquote_char else quote_char in
  string_of_list_ascii (q :: flat_map (repr_char q) l ++ [q]).

(** *** [float] of a [str] *)

(** Code points from 127 on: a space becomes [' '], anything else that is no
    decimal digit becomes ['?'] and ends the string. *)
Fixpoint transform_decimal_and_space (l : list ascii) : list ascii :=
  match l with
  | [] => []
  | c :: l' =>
      if ord c <? 127 then c :: transform_decimal_and_space l'
      else if Py_UNICODE_ISSPACE c then " "%char :: transform_decimal_and_space l'
      else ["?"%char]
  end.

(** Underscores are dropped, and allowed only between two digits. *)
Fixpoint drop_underscores (prev : ascii) (l : list ascii) : option (list ascii) :=
  match l with
  | [] => if Ascii.eqb prev "_"%char then None else Some []
  | c :: l' =>
      if Ascii.eqb c "_"%char then
        if is_digit prev then drop_underscores c l' else None
      else if Ascii.eqb prev "_"%char && negb (is_digit c) then None
      else option_map (cons c) (drop_underscores c l')
  end.

Fixpoint lstrip (l : list ascii) : list ascii :=
  match l with
  | c :: l' => if Py_ISSPACE c then lstrip l' else l
  | [] => []
  end.

Definition strip (l : list ascii) : list ascii := rev (lstrip (rev (lstrip l))).

Fixpoint span_digits (l : list ascii) : list ascii * list ascii :=
  match l with
  | c :: l' =>
      if is_digit c then let '(ds, r) := span_digits l' in (c :: ds, r) else ([], l)
  | [] => ([], [])
  end.

Definition digits_value (ds : list ascii) : Z :=
  fold_left (fun acc c => acc * 10 + digit_value c) ds 0.

Definition split_sign (l : list ascii) : bool * list ascii :=
  match l with
  | "-"%char :: l' => (true, l')
  | "+"%char :: l' => (false, l')
  | _ => (false, l)
  end.

Definition lower (l : list ascii) : string := string_of_list_ascii (map Py_TOLOWER l).

(** The exponent part: nothing, or [e] or [E], an optional sign and at least
    one digit, up to the end of the string. *)
Definition parse_exponent (l : list ascii) : option Z :=
  match l with
  | [] => Some 0
  | c :: l' =>
      if Ascii.eqb (Py_TOLOWER c) "e"%char then
        let '(neg, l'') := split_sign l' in
        match span_digits l'' with
        | ((_ :: _) as ds, []) => Some (cond_Zopp neg (digits_value ds))
        | _ => None
        end
      else None
  end.

(** The whole of a stripped string as a number: [inf], [infinity] or [nan]
    in any case, or a decimal literal with at least one digit. *)
Definition string_to_double (l : list ascii) : option float64 :=
  let '(neg, body) := split_sign l in
  if String.eqb (lower body) "inf" || String.eqb (lower body) "infinity"
  then Some (S754_infinity neg)
  else if String.eqb (lower body) "nan" then Some S754_nan
  else
    let '(ip, r) := span_digits body in
    let '(fp, r') :=
      match r with
      | "."%char :: r1 => span_digits r1
      | _ => ([], r)
      end in
    match ip ++ fp with
    | [] => None
    | ds =>
        match parse_exponent r' with
        | Some x => Some (of_decimal neg (digits_value ds) (x - Z.of_nat (List.length fp)))
        | None => None
        end
    end.

(** [float(s)] for a [str] [s]. *)
Definition float (s : string) : result float64 :=
  let failure := Raise (ValueError ("could not convert string to float: " ++ repr s)%string) in
  match drop_underscores "000"%char (transform_decimal_and_space (list_ascii_of_string s)) with
  | None => failure
  | Some l =>
      match string_to_double (strip l) with
      | Some x => Ok x
      | None => failure
      end
  end.

(** ** [json.dumps] *)

#[warnings="-register-all"]
Inductive json : Type :=
| JBool (b : bool)
| JNum (x : float64)
| JStr (s : string)
| JArr (items : list json)
| JObj (members : list (string * json)).

(** A character inside a JSON string, [ensure_ascii] being on. *)
Definition json_char (c : ascii) : list ascii :=
  if Ascii.eqb c dquote_char || Ascii.eqb c backslash then [backslash; c]
  else if ord c =? 10 then [backslash; "n"%char]
  else if ord c =? 13 then [backslash; "r"%char]
  else if ord c =? 9 then [backslash; "t"%char]
  else if ord c =? 8 then [backslash; "b"%char]
  else if ord c =? 12 then [backslash; "f"%char]
  else if (32 <=? ord c) && (ord c <? 127) then [c]
  else [backslash; "u"%char; "0"%char; "0"%char;
        hex_digit (ord c / 16); hex_digit (ord c mod 16)].

Definition json_string (s : string) : string :=
  string_of_list_ascii
    (dquote_char :: flat_map json_char (list_ascii_of_string s) ++ [dquote_char]).

Fixpoint join (sep : string) (l : list string) : string :=
  match l with
  | [] => ""
  | [s] => s
  | s :: l' => (s ++ sep ++ join sep l')%string
  end.

Section Dumps.

(** [float.__repr__] on a finite value. *)
Variable float_repr : float64 -> string.

Definition json_number (x : float64) : string :=
  match x with
  | S754_nan => "NaN"
  | S754_infinity false => "Infinity"
  | S754_infinity true => "-Infinity"
  | _ => float_repr x
  end.

(** [json.dumps(v)]: members in insertion order, [", "] between items and
    [": "] after a key. *)
Fixpoint dumps (v : json) : string :=
  match v with
  | JBool true => "true"
  | JBool false => "false"
  | JNum x => json_number x
  | JStr s => json_string s
  | JArr items => ("[" ++ join ", " (map dumps items) ++ "]")%string
  | JObj members =>
      ("{" ++ join ", "
                (map (fun kv => (json_string (fst kv) ++ ": " ++ dumps (snd kv))%string)
                     members)
           ++ "}")%string
  end.

End Dumps.

(** The value under a key of a JSON object. *)
Fixpoint member (k : string) (members : list (string * json)) : option json :=
  match members with
  | [] => None
  | (k', v) :: rest => if String.eqb k k' then Some v else member k rest
  end.

Definition get (k : string) (v : json) : option json :=
  match v with
  | JObj members => member k members
  | _ => None
  end.

(** ** The libraries the source calls *)

(** A frame of numeric rows under named columns. *)
Record DataFrame_t : Type := {
  columns : list string;
  rows : list (list float64)
}.

Definition width (data : list (list float64)) : nat :=
  fold_right (fun row w => Nat.max (List.length row) w) 0%nat data.

Definition pad (w : nat) (row : list float64) : list float64 :=
  row ++ repeat S754_nan (w - List.length row).

(** [pd.DataFrame(data, columns=columns)] on a list of rows: the rows are as
    wide as the longest one, and that width must be the number of columns. *)
Definition DataFrame (data : list (list float64)) (cols : list string) : result DataFrame_t :=
  let w := width data in
  if Nat.eqb w (List.length cols)
  then Ok {| columns := cols; rows := map (pad w) data |}
  else Raise (ValueError (str_of_nat (List.length cols) ++ " columns passed, passed data had "
                            ++ str_of_nat w ++ " columns")%string).

(** The fitted model restored by [joblib.load]: its class labels in the
    model's own order, and the probability matrix for a frame, one row for
    each row of the frame.  What [predict_proba] does with a frame, raising
    included, is for the library to say. *)
Record Classifier : Type := {
  classes_ : list string;
  predict_proba : DataFrame_t -> result (list (list float64))
}.

(** [a[0]] *)
Definition index0 {A : Type} (a : list A) : result A :=
  match a with
  | x :: _ => Ok x
  | [] => Raise (LibraryError "index 0 is out of bounds for axis 0 with size 0")
  end.

(** ** predict.py *)

Module Predict.

Definition FEATURES : list string :=
  ["N"; "P"; "K"; "temperature"; "humidity"; "ph"; "rainfall"].

Section WithModel.

(** [model = joblib.load("crop_model.pkl")] *)
Variable model : Classifier.

Definition predict_top3 (user_input : list float64) : result (list (string * float64)) :=
  (df <- DataFrame [user_input] FEATURES ;;
   proba <- predict_proba model df ;;
   probs <- index0 proba ;;
   let classes := classes_ model in
   let results := combine classes probs in
   let results := sorted ltb snd true results in
   let top3 := firstn 3 results in
   Ok (map (fun '(crop, prob) => (crop, round (mul prob (of_Z 100)) 2)) top3))%py.

End WithModel.

End Predict.

(** *** [predict_top3] on any list of values

    [predict_top3] itself takes whatever list the caller hands it: here a
    value is a number or a [str], and so are the cells of the frame and what
    [predict_proba] receives. *)

Module Dynamic.

Inductive pyvalue : Type :=
| PyFloat (x : float64)
| PyStr (s : string).

Record DataFrame_t : Type := {
  columns : list string;
  rows : list (list pyvalue)
}.

Definition width (data : list (list pyvalue)) : nat :=
  fold_right (fun row w => Nat.max (List.length row) w) 0%nat data.

Definition pad (w : nat) (row : list pyvalue) : list pyvalue :=
  row ++ repeat (PyFloat S754_nan) (w - List.length row).

(** [pd.DataFrame(data, columns=columns)]: the check is on the width alone. *)
Definition DataFrame (data : list (list pyvalue)) (cols : list string) : result DataFrame_t :=
  let w := width data in
  if Nat.eqb w (List.length cols)
  then Ok {| columns := cols; rows := map (pad w) data |}
  else Raise (ValueError (str_of_nat (List.length cols) ++ " columns passed, passed data had "
                            ++ str_of_nat w ++ " columns")%string).

Record Classifier : Type := {
  classes_ : list string;
  predict_proba : DataFrame_t -> result (list (list float64))
}.

Definition FEATURES : list string :=
  ["N"; "P"; "K"; "temperature"; "humidity"; "ph"; "rainfall"].

Definition predict_top3 (model : Classifier) (user_input : list pyvalue)
  : result (list (string * float64)) :=
  (df <- DataFrame [user_input] FEATURES ;;
   proba <- predict_proba model df ;;
   probs <- index0 proba ;;
   let classes := classes_ model in
   let results := combine classes probs in
   let results := sorted ltb snd true results in
   let top3 := firstn 3 results in
   Ok (map (fun '(crop, prob) => (crop, round (mul prob (of_Z 100)) 2)) top3))%py.

End Dynamic.

(** A frame of numbers among the frames of values. *)
Definition numeric_frame (df : DataFrame_t) : Dynamic.DataFrame_t :=
  {| Dynamic.columns := columns df;
     Dynamic.rows := map (map Dynamic.PyFloat) (rows df) |}.

(** What a classifier does on frames of numbers. *)
Definition on_numbers (model : Dynamic.Classifier) : Classifier :=
  {| classes_ := Dynamic.classes_ model;
     predict_proba := fun df => Dynamic.predict_proba model (numeric_frame df) |}.

(** ** predict_wrapper.py *)

Module PredictWrapper.

(** A computation that prints JSON documents and returns or raises. *)
Definition io (A : Type) : Type := (list json * result A)%type.

Definition ret {A : Type} (a : A) : io A := ([], Ok a).

Definition raise {A : Type} (e : exn) : io A := ([], Raise e).

Definition lift {A : Type} (r : result A) : io A := ([], r).

(** [print(json.dumps(v))] *)
Definition print (v : json) : io unit := ([v], Ok tt).

Definition io_bind {A B : Type} (c : io A) (k : A -> io B) : io B :=
  match c with
  | (out, Ok a) => let '(out', r) := k a in (out ++ out', r)
  | (out, Raise e) => (out, Raise e)
  end.

(** [try: body  except Exception as e: handler(e)] *)
Definition try_except {A : Type} (body : io A) (handler : exn -> io A) : io A :=
  match body with
  | (out, Raise e) => let '(out', r) := handler e in (out ++ out', r)
  | done => done
  end.

Declare Scope io_scope.
Delimit Scope io_scope with io.
Notation "x <- c ;; k" := (io_bind c (fun x => k))
  (at level 61, c at next level, right associativity) : io_scope.
Notation "c ;; k" := (io_bind c (fun _ => k))
  (at level 61, right associativity) : io_scope.

Definition FEATURES : list string :=
  ["N"; "P"; "K"; "temperature"; "humidity"; "ph"; "rainfall"].

Definition recommendation (r : string * float64) : json :=
  let '(crop, prob) := r in
  JObj [("crop", JStr crop); ("probability", JNum (round (mul prob (of_Z 100)) 2))].

Definition predict (model : Classifier) (args : list string) : io unit :=
  try_except
    ((if negb (Nat.eqb (List.length args) 7)
      then raise (ValueError
                    "Expected 7 features: N, P, K, temperature, humidity, ph, rainfall")
      else ret tt) ;;
     inputs <- lift (map_result float args) ;;
     df <- lift (DataFrame [inputs] FEATURES) ;;
     proba <- lift (predict_proba model df) ;;
     probs <- lift (index0 proba) ;;
     let classes := classes_ model in
     let results := combine classes probs in
     let results := sorted ltb snd true results in
     let top3 := map recommendation (firstn 3 results) in
     print (JObj [("success", JBool true); ("recommendations", JArr top3)]))%io
    (fun e => print (JObj [("success", JBool false); ("error", JStr (str_exn e))])).

(** One run of the script: what it prints and its exit status.  [load] is
    the outcome of [joblib.load(model_path)] and [argv] is [sys.argv]. *)
Definition main (load : result Classifier) (argv : list string) : list json * Z :=
  match load with
  | Raise e =>
      ([JObj [("error", JStr ("Failed to load model: " ++ str_exn e)%string)]], 1)
  | Ok model =>
      match predict model (tl argv) with
      | (out, Ok _) => (out, 0)
      | (out, Raise _) => (out, 1)
      end
  end.

End PredictWrapper.

(** ** Vocabulary of the statements *)

(** The frame both entry points build from seven numbers. *)
Definition frame (inputs : list float64) : DataFrame_t :=
  {| columns := Predict.FEATURES; rows := [inputs] |}.

(** The pairs [(class, probability)] behind the recommendations:
    [sorted(zip(classes, probs), key=lambda x: x[1], reverse=True)[:3]]. *)
Definition top3 (classes : list string) (probs : list float64) : list (string * float64) :=
  firstn 3 (sorted ltb snd true (combine classes probs)).

(** [(crop, round(prob * 100, 2))] *)
Definition as_percentage (r : string * float64) : string * float64 :=
  let '(crop, prob) := r in (crop, round (mul prob (of_Z 100)) 2).

(** [round(prob * 100, 2)] *)
Definition percentage (prob : float64) : float64 := round (mul prob (of_Z 100)) 2.

Definition not_nan (x : float64) : Prop := is_nan x = false.

(** A probability: a binary64 value between 0 and 1. *)
Definition is_probability (p : float64) : Prop :=
  is_float64 p /\ leb (of_Z 0) p = true /\ leb p (of_Z 1) = true.

(** The percentage for the integer [k] of hundredths: the binary64 value
    nearest to [k / 100]. *)
Definition hundredths (k : Z) : float64 := div (of_Z k) (of_Z 100).

(** [{"success": true, "recommendations": [{"crop": ..., "probability": ...}, ...]}] *)
Definition success_envelope (recs : list (string * float64)) : json :=
  JObj [("success", JBool true);
        ("recommendations",
         JArr (map (fun r => JObj [("crop", JStr (fst r)); ("probability", JNum (snd r))]) recs))].

(** [{"success": false, "error": msg}] *)
Definition failure_envelope (msg : string) : json :=
  JObj [("success", JBool false); ("error", JStr msg)].

Definition EXPECTED_7 : string :=
  "Expected 7 features: N, P, K, temperature, humidity, ph, rainfall".

(** The text [json.dumps] gives the failure envelope for a wrong number of
    arguments. *)
Definition EXPECTED_7_json : string :=
  let q := String dquote_char EmptyString in
  ("{" ++ q ++ "success" ++ q ++ ": false, " ++ q ++ "error" ++ q ++ ": " ++ q
       ++ "Expected 7 features: N, P, K, temperature, humidity, ph, rainfall" ++ q ++ "}")%string.

(** [float(x)] raises. *)
Definition non_numeric (x : string) : Prop := exists e, float x = Raise e.

(** Every character is a printable ASCII one, from the space to the tilde:
    none ends a line. *)
Definition printable_ascii (s : string) : bool :=
  forallb (fun c => (32 <=? ord c) && (ord c <? 127)) (list_ascii_of_string s).

(** *** A classifier and a request to run the code on *)

(** Four classes, two of them tied. *)
Definition example_probs : list float64 :=
  [of_decimal false 25 (-2); of_decimal false 4 (-1);
   of_decimal false 1 (-1); of_decimal false 25 (-2)].

Definition example_model : Classifier :=
  {| classes_ := ["apple"; "banana"; "rice"; "maize"];
     predict_proba := fun df => Ok (map (fun _ => example_probs) (rows df)) |}.

(** The same persisted model, loaded once more. *)
Definition example_model_reloaded : Classifier :=
  {| classes_ := classes_ example_model;
     predict_proba := fun df => predict_proba example_model df |}.


(** [sample = [90, 40, 40, 25.5, 75, 6.8, 180]] of [predict.py]. *)
Definition sample : list float64 :=
  [of_Z 90; of_Z 40; of_Z 40; of_decimal false 255 (-1); of_Z 75;
   of_decimal false 68 (-1); of_Z 180].

(** ** Arithmetic of rounding to nearest even *)

(** [M / 2^n] rounded to the nearest integer, ties to even. *)
Definition rne (M n : Z) : Z :=
  let m := M / 2 ^ n in
  match 2 * (M mod 2 ^ n) ?= 2 ^ n with
  | Lt => m
  | Eq => if Z.even m then m else m + 1
  | Gt => m + 1
  end.

(** [R] is an integer nearest to [M / P], and even when two are. *)
Definition nearest_even (M P R : Z) : Prop :=
  - P <= 2 * (R * P - M) <= P /\ (Z.abs (2 * (R * P - M)) = P -> Z.even R = true).

(** The float for the rounded mantissa [R] at exponent [t]. *)
Definition finish (s : bool) (R t : Z) : float64 :=
  if R =? 0 then S754_zero s
  else if R =? 2 ^ 53 then
    if t + 1 <=? 971 then S754_finite s (2 ^ 52)%positive (t + 1) else S754_infinity s
  else if t <=? 971 then S754_finite s (Z.to_pos R) t else S754_infinity s.

(** [m1 * 2^e1 <= m2 * 2^e2] *)
Definition vle (m1 : positive) (e1 : Z) (m2 : positive) (e2 : Z) : Prop :=
  Z.pos m1 * 2 ^ (e1 - Z.min e1 e2) <= Z.pos m2 * 2 ^ (e2 - Z.min e1 e2).

(** Zero of either sign, a positive finite value or plus infinity. *)
Definition nonneg (x : float64) : Prop :=
  match x with
  | S754_zero _ | S754_finite false _ _ | S754_infinity false => True
  | _ => False
  end.

(** The mantissa of [100.0], whose exponent is [-46]. *)
Definition m100 : positive := 7036874417766400.

(** The integer nearest to a non-negative finite value, ties to even. *)
Definition nearest_int (x : float64) : Z :=
  match x with
  | S754_finite false m e => rne (Z.pos m) (- e)
  | _ => 0
  end.

(** [hundredths] does not decrease over the [n] steps from [k]. *)
Fixpoint steps_ok (n : nat) (k : Z) : bool :=
  match n with
  | O => true
  | S n' => leb (hundredths k) (hundredths (k + 1)) && steps_ok n' (k + 1)
  end.

(** Case analysis on every comparison of exponents and mantissas in sight. *)
Ltac cmp_cases :=
  repeat match goal with
  | |- context [Z.compare ?a ?b] => destruct (Z.compare_spec a b)
  | |- context [Pos.compare_cont Eq ?a ?b] =>
      change (Pos.compare_cont Eq a b) with (Pos.compare a b);
      destruct (Pos.compare_spec a b)
  | H : context [Z.compare ?a ?b] |- _ => destruct (Z.compare_spec a b)
  | H : context [Pos.compare_cont Eq ?a ?b] |- _ =>
      change (Pos.compare_cont Eq a b) with (Pos.compare a b) in H;
      destruct (Pos.compare_spec a b)
  end.

(** * Facts *)

(** ** [sorted] is a stable sort *)

Section SortedFacts.

Context {A K : Type}.
Variable lt : K -> K -> bool.
Variable key : A -> K.

(** The keys the order is total on. *)
Variable ordered : K -> Prop.

Hypothesis lt_asym : forall a b, lt a b = true -> lt b a = false.
Hypothesis lt_neg_trans : forall a b c,
    ordered a -> ordered b -> ordered c ->
    lt a b = false -> lt b c = false -> lt a c = false.

Lemma insert_perm (x : A) (l : list A) : Permutation (insert lt key x l) (x :: l).
Proof.
  induction l as [|y l IH]; simpl.
  - apply Permutation_refl.
  - destruct (lt (key x) (key y)).
    + apply Permutation_refl.
    + apply Permutation_trans with (y :: x :: l).
      * now apply perm_skip.
      * apply perm_swap.
Qed.

Lemma fold_insert_perm (l acc : list A) :
  Permutation (fold_left (fun acc x => insert lt key x acc) l acc) (acc ++ l).
Proof.
  revert acc; induction l as [|x l IH]; intro acc; simpl.
  - rewrite app_nil_r. apply Permutation_refl.
  - eapply Permutation_trans; [apply IH|].
    eapply Permutation_trans; [apply Permutation_app_tail, insert_perm|].
    simpl. apply Permutation_middle.
Qed.

Lemma sort_ascending_perm (l : list A) : Permutation (sort_ascending lt key l) l.
Proof. apply (fold_insert_perm l []). Qed.

Lemma sorted_perm (reverse : bool) (l : list A) :
  Permutation (sorted lt key reverse l) l.
Proof.
  unfold sorted; destruct reverse.
  - eapply Permutation_trans; [apply Permutation_sym, Permutation_rev|].
    eapply Permutation_trans; [apply sort_ascending_perm|].
    apply Permutation_sym, Permutation_rev.
  - apply sort_ascending_perm.
Qed.

Lemma sorted_length (reverse : bool) (l : list A) :
  List.length (sorted lt key reverse l) = List.length l.
Proof. apply Permutation_length, sorted_perm. Qed.

Lemma all_ordered_perm (l l' : list A) :
  Permutation l l' -> all_ordered key ordered l -> all_ordered key ordered l'.
Proof. intros HP H. unfold all_ordered. now rewrite <- HP. Qed.

Lemma insert_ascending (x : A) (l : list A) :
  ordered (key x) -> all_ordered key ordered l -> ascending lt key l -> ascending lt key (insert lt key x l).
Proof.
  intros Hx Hl Hs. induction Hs as [|y l Hs IH Hy]; simpl.
  - constructor; constructor.
  - inversion Hl as [|? ? Hoy Hol]; subst.
    destruct (lt (key x) (key y)) eqn:E.
    + constructor.
      * now constructor.
      * constructor.
        -- now apply lt_asym.
        -- rewrite Forall_forall in Hy, Hol |- *. intros z Hz.
           apply lt_neg_trans with (key y);
             [now apply Hol | exact Hoy | exact Hx | now apply Hy | now apply lt_asym].
    + constructor.
      * now apply IH.
      * rewrite Forall_forall in Hy |- *. intros z Hz.
        apply (Permutation_in _ (insert_perm x l)) in Hz.
        destruct Hz as [<-|Hz]; auto.
Qed.

Lemma fold_insert_ascending (l acc : list A) :
  all_ordered key ordered l -> all_ordered key ordered acc -> ascending lt key acc ->
  ascending lt key (fold_left (fun acc x => insert lt key x acc) l acc).
Proof.
  revert acc; induction l as [|x l IH]; intros acc Hl Hacc Hs; simpl; auto.
  inversion Hl; subst.
  apply IH; auto.
  - apply all_ordered_perm with (x :: acc).
    + apply Permutation_sym, insert_perm.
    + now constructor.
  - now apply insert_ascending.
Qed.

Lemma sort_ascending_ascending (l : list A) :
  all_ordered key ordered l -> ascending lt key (sort_ascending lt key l).
Proof.
  intro Hl. apply fold_insert_ascending; auto; constructor.
Qed.

Lemma StronglySorted_app (R : A -> A -> Prop) (l1 l2 : list A) :
  StronglySorted R l1 -> StronglySorted R l2 ->
  (forall x y, In x l1 -> In y l2 -> R x y) ->
  StronglySorted R (l1 ++ l2).
Proof.
  intros H1 H2 H12. induction H1 as [|a l H1 IH Ha]; simpl; auto.
  constructor.
  - apply IH. intros x y Hx Hy. apply H12; simpl; auto.
  - apply Forall_app; split; auto.
    rewrite Forall_forall. intros y Hy. apply H12; simpl; auto.
Qed.

Lemma StronglySorted_rev (R : A -> A -> Prop) (l : list A) :
  StronglySorted R l -> StronglySorted (fun x y => R y x) (rev l).
Proof.
  induction 1 as [|a l Hl IH Ha]; simpl.
  - constructor.
  - apply StronglySorted_app; auto.
    + constructor; constructor.
    + intros x y Hx [<-|[]]. rewrite Forall_forall in Ha.
      apply Ha. now apply in_rev.
Qed.

(** [sorted(..., reverse=True)] is in descending lt key order of key. *)
Lemma sorted_reverse_descending (l : list A) :
  all_ordered key ordered l -> descending lt key (sorted lt key true l).
Proof.
  intro Hl. unfold sorted, descending.
  apply (StronglySorted_rev (fun x y => lt (key y) (key x) = false)).
  apply sort_ascending_ascending.
  apply all_ordered_perm with l; auto. apply Permutation_rev.
Qed.

(** *** Stability *)

Lemma lt_of_not_ge (a b c : K) :
  ordered a -> ordered b -> ordered c ->
  lt a b = true -> lt c b = false -> lt a c = true.
Proof.
  intros Ha Hb Hc Hab Hcb.
  destruct (lt a c) eqn:E; auto.
  rewrite (lt_neg_trans a c b) in Hab; auto.
Qed.

Lemma insert_filter_other (k : K) (x : A) (l : list A) :
  same_key lt k (key x) = false ->
  filter (fun a => same_key lt k (key a)) (insert lt key x l)
  = filter (fun a => same_key lt k (key a)) l.
Proof.
  intro Hx. induction l as [|y l IH]; simpl.
  - now rewrite Hx.
  - destruct (lt (key x) (key y)); simpl.
    + now rewrite Hx.
    + now rewrite IH.
Qed.

Lemma insert_filter_same (k : K) (x : A) (l : list A) :
  ordered k -> ordered (key x) -> all_ordered key ordered l -> ascending lt key l ->
  same_key lt k (key x) = true ->
  filter (fun a => same_key lt k (key a)) (insert lt key x l)
  = filter (fun a => same_key lt k (key a)) l ++ [x].
Proof.
  intros Hk Hx Hl Hs Hkx.
  unfold same_key in Hkx. apply andb_true_iff in Hkx as [Hkx Hxk].
  apply negb_true_iff in Hkx, Hxk.
  induction Hs as [|y l Hs IH Hy]; simpl.
  - unfold same_key. now rewrite Hkx, Hxk.
  - inversion Hl as [|? ? Hoy Hol]; subst.
    destruct (lt (key x) (key y)) eqn:E.
    + assert (Hnone : forall z, In z (y :: l) -> same_key lt k (key z) = false).
      { intros z Hz.
        assert (Hoz : ordered (key z)).
        { destruct Hz as [<-|Hz]; auto.
          rewrite Forall_forall in Hol. now apply Hol. }
        assert (Hxz : lt (key x) (key z) = true).
        { destruct Hz as [<-|Hz]; auto.
          apply lt_of_not_ge with (key y); auto.
          rewrite Forall_forall in Hy. now apply Hy. }
        assert (Hkz : lt k (key z) = true).
        { destruct (lt k (key z)) eqn:E'; auto.
          rewrite (lt_neg_trans (key x) k (key z)) in Hxz; auto. }
        unfold same_key. now rewrite Hkz. }
      assert (Hnil : filter (fun a => same_key lt k (key a)) (y :: l) = []).
      { generalize Hnone. generalize (y :: l). intro l0.
        induction l0 as [|z l0 IH0]; intro H0; simpl; auto.
        rewrite H0 by (simpl; auto). apply IH0. intros; apply H0; simpl; auto. }
      assert (Hx' : same_key lt k (key x) = true).
      { unfold same_key. now rewrite Hkx, Hxk. }
      cbn [filter] in Hnil |- *. rewrite Hx', Hnil. reflexivity.
    + simpl. rewrite (IH Hol).
      now destruct (same_key lt k (key y)).
Qed.

Lemma fold_insert_stable (k : K) (l acc : list A) :
  ordered k -> all_ordered key ordered l -> all_ordered key ordered acc -> ascending lt key acc ->
  filter (fun a => same_key lt k (key a)) (fold_left (fun acc x => insert lt key x acc) l acc)
  = filter (fun a => same_key lt k (key a)) acc ++ filter (fun a => same_key lt k (key a)) l.
Proof.
  intro Hk. revert acc; induction l as [|x l IH]; intros acc Hl Hacc Hs; simpl.
  - now rewrite app_nil_r.
  - inversion Hl; subst.
    rewrite IH; auto.
    + destruct (same_key lt k (key x)) eqn:E.
      * rewrite insert_filter_same by auto. now rewrite <- app_assoc.
      * now rewrite insert_filter_other.
    + apply all_ordered_perm with (x :: acc).
      * apply Permutation_sym, insert_perm.
      * now constructor.
    + now apply insert_ascending.
Qed.

(** Elements whose keys compare equal leave [sorted] in the order they
    came in, whichever way the sort runs. *)
Lemma sorted_stable (reverse : bool) (k : K) (l : list A) :
  ordered k -> all_ordered key ordered l ->
  filter (fun a => same_key lt k (key a)) (sorted lt key reverse l)
  = filter (fun a => same_key lt k (key a)) l.
Proof.
  intros Hk Hl. unfold sorted, sort_ascending; destruct reverse.
  - rewrite filter_rev, fold_insert_stable; auto.
    + simpl. rewrite filter_rev. apply rev_involutive.
    + apply all_ordered_perm with l; auto. apply Permutation_rev.
    + constructor.
    + constructor.
  - rewrite fold_insert_stable; auto; constructor.
Qed.

End SortedFacts.

(** ** The order on binary64 values *)

Lemma ltb_asym a b : ltb a b = true -> ltb b a = false.
Proof.
  unfold ltb, SFltb.
  destruct a as [sa|sa| |sa ma ea], b as [sb|sb| |sb mb eb]; simpl;
    try destruct sa; try destruct sb; simpl; try congruence;
    cmp_cases; simpl; try congruence; try lia.
Qed.

Lemma ltb_neg_trans a b c :
  is_nan a = false -> is_nan b = false -> is_nan c = false ->
  ltb a b = false -> ltb b c = false -> ltb a c = false.
Proof.
  unfold ltb, SFltb.
  destruct a as [sa|sa| |sa ma ea], b as [sb|sb| |sb mb eb], c as [sc|sc| |sc mc ec]; simpl;
    try destruct sa; try destruct sb; try destruct sc; simpl; try congruence;
    cmp_cases; simpl; try congruence; try lia.
Qed.

(** ** Shifting a mantissa and rounding it *)

Lemma iter_pos_nat {A : Type} (f : A -> A) (p : positive) (x : A) :
  iter_pos f p x = Nat.iter (Pos.to_nat p) f x.
Proof.
  revert x; induction p as [p IH|p IH|]; intro x; cbn [iter_pos].
  - rewrite !IH, Pos2Nat.inj_xI.
    rewrite <- Nat.iter_succ_r, <- Nat.iter_add.
    f_equal. lia.
  - rewrite !IH, Pos2Nat.inj_xO, <- Nat.iter_add. f_equal. lia.
  - reflexivity.
Qed.

Lemma shr_1_spec (m : Z) (r s : bool) :
  0 <= m ->
  shr_1 (Build_shr_record m r s) = Build_shr_record (m / 2) (Z.odd m) (r || s).
Proof.
  intro Hm. destruct m as [|p|p]; try lia; simpl.
  - reflexivity.
  - destruct p as [p|p|]; simpl.
    + f_equal. rewrite Pos2Z.inj_xI. apply Z.div_unique with 1; lia.
    + f_equal. rewrite Pos2Z.inj_xO. apply Z.div_unique with 0; lia.
    + reflexivity.
Qed.

Lemma shr_iter_spec (n : nat) (M : Z) :
  0 <= M ->
  Nat.iter n shr_1 (Build_shr_record M false false)
  = Build_shr_record (M / 2 ^ Z.of_nat n)
      (2 ^ Z.of_nat n <=? 2 * (M mod 2 ^ Z.of_nat n))
      (negb (M mod 2 ^ Z.of_nat n =? 0) && negb (2 * (M mod 2 ^ Z.of_nat n) =? 2 ^ Z.of_nat n)).
Proof.
  intro HM. induction n as [|n IH].
  - simpl. rewrite Z.div_1_r, Z.mod_1_r. reflexivity.
  - rewrite Nat.iter_succ, IH.
    assert (Hp : 0 < 2 ^ Z.of_nat n) by (apply Z.pow_pos_nonneg; lia).
    rewrite shr_1_spec by (apply Z.div_pos; lia).
    rewrite Nat2Z.inj_succ, Z.pow_succ_r by lia.
    set (P := 2 ^ Z.of_nat n) in *.
    assert (Hd : M / (2 * P) = M / P / 2).
    { rewrite (Z.mul_comm 2 P). rewrite Z.div_div; lia. }
    assert (Hr : M mod (2 * P) = M mod P + P * ((M / P) mod 2)).
    { rewrite (Z.mul_comm 2 P). apply Z.rem_mul_r; lia. }
    rewrite Hd, Hr.
    pose proof (Z.mod_pos_bound M P Hp) as Hb.
    pose proof (Z.mod_pos_bound (M / P) 2 ltac:(lia)) as Hb2.
    pose proof (Zmod_odd (M / P)) as Ho.
    set (rho := M mod P) in *. set (b := (M / P) mod 2) in *.
    destruct (Z.odd (M / P)); rewrite Ho; f_equal.
    + symmetry; apply Z.leb_le; lia.
    + destruct (Z.leb_spec P (2 * rho)), (Z.eqb_spec rho 0), (Z.eqb_spec (2 * rho) P),
        (Z.eqb_spec (rho + P * 1) 0), (Z.eqb_spec (2 * (rho + P * 1)) (2 * P));
        simpl; try reflexivity; lia.
    + symmetry; apply Z.leb_gt; lia.
    + rewrite Z.mul_0_r, Z.add_0_r.
      destruct (Z.leb_spec P (2 * rho)), (Z.eqb_spec rho 0), (Z.eqb_spec (2 * rho) P),
        (Z.eqb_spec (2 * rho) (2 * P)); simpl; try reflexivity; lia.
Qed.

Lemma shr_exact_rne (M e n : Z) :
  0 <= M -> 0 <= n ->
  let '(mrs, e') := shr (Build_shr_record M false false) e n in
  round_nearest_even (shr_m mrs) (loc_of_shr_record mrs) = rne M n /\ e' = e + n.
Proof.
  intros HM Hn. unfold shr, rne.
  destruct n as [|p|p]; try lia.
  - simpl. rewrite Z.div_1_r, Z.mod_1_r. simpl. split; [reflexivity|lia].
  - rewrite iter_pos_nat, shr_iter_spec by lia.
    rewrite positive_nat_Z. split; [|reflexivity].
    assert (HP : 0 < 2 ^ Z.pos p) by (apply Z.pow_pos_nonneg; lia).
    pose proof (Z.mod_pos_bound M _ HP) as Hb.
    set (P := 2 ^ Z.pos p) in *. set (rho := M mod P) in *. set (m := M / P).
    cbn [shr_m].
    destruct (Z.leb_spec P (2 * rho)), (Z.eqb_spec rho 0), (Z.eqb_spec (2 * rho) P),
      (Z.compare_spec (2 * rho) P); cbn; try reflexivity; try lia.
Qed.

Lemma rne_nearest (M n : Z) :
  0 <= M -> 0 <= n -> nearest_even M (2 ^ n) (rne M n).
Proof.
  intros HM Hn. unfold nearest_even, rne.
  assert (HP : 0 < 2 ^ n) by (apply Z.pow_pos_nonneg; lia).
  pose proof (Z.mod_pos_bound M _ HP) as Hb.
  pose proof (Z.div_mod M (2 ^ n) ltac:(lia)) as Hdm.
  set (P := 2 ^ n) in *. set (rho := M mod P) in *. set (m := M / P) in *.
  destruct (Z.compare_spec (2 * rho) P) as [He|Hl|Hg].
  - destruct (Z.even m) eqn:Ev.
    + split; [nia|]. intros _. exact Ev.
    + split; [nia|]. intros _. rewrite Z.even_add, Ev. reflexivity.
  - split; [nia|]. intro Ha. exfalso. nia.
  - split; [nia|]. intro Ha. exfalso. nia.
Qed.

Lemma rne_bounds (M n : Z) :
  0 <= M -> 0 <= n -> M / 2 ^ n <= rne M n <= M / 2 ^ n + 1.
Proof.
  intros HM Hn. unfold rne.
  destruct (Z.compare_spec (2 * (M mod 2 ^ n)) (2 ^ n)); try lia.
  destruct (Z.even (M / 2 ^ n)); lia.
Qed.

Lemma nearest_even_scale (M P R k : Z) :
  0 < k -> nearest_even M P R -> nearest_even (M * k) (P * k) R.
Proof.
  intros Hk [Hb He]. split; [nia|].
  intro Ha. apply He.
  replace (2 * (R * (P * k) - M * k)) with (2 * (R * P - M) * k) in Ha by ring.
  rewrite Z.abs_mul, (Z.abs_eq k) in Ha by lia. nia.
Qed.

Lemma nearest_even_mono (M1 M2 P R1 R2 : Z) :
  0 < P -> nearest_even M1 P R1 -> nearest_even M2 P R2 -> M1 <= M2 -> R1 <= R2.
Proof.
  intros HP [Hb1 He1] [Hb2 He2] HM.
  destruct (Z.le_gt_cases R1 R2) as [|Hgt]; auto. exfalso.
  assert (H1 : R1 = R2 + 1) by nia.
  assert (HMeq : M1 = M2) by nia.
  subst R1 M2.
  assert (Ha1 : Z.abs (2 * ((R2 + 1) * P - M1)) = P) by nia.
  assert (Ha2 : Z.abs (2 * (R2 * P - M1)) = P) by nia.
  specialize (He1 Ha1). specialize (He2 Ha2).
  rewrite Z.even_add, He2 in He1. discriminate.
Qed.

Lemma rne_mono (M1 n1 M2 n2 : Z) :
  0 <= M1 -> 0 <= M2 -> 0 <= n1 -> 0 <= n2 ->
  M1 * 2 ^ n2 <= M2 * 2 ^ n1 -> rne M1 n1 <= rne M2 n2.
Proof.
  intros HM1 HM2 Hn1 Hn2 Hle.
  assert (HP1 : 0 < 2 ^ n1) by (apply Z.pow_pos_nonneg; lia).
  assert (HP2 : 0 < 2 ^ n2) by (apply Z.pow_pos_nonneg; lia).
  apply nearest_even_mono with (M1 * 2 ^ n2) (M2 * 2 ^ n1) (2 ^ n1 * 2 ^ n2); auto.
  - nia.
  - apply nearest_even_scale; auto. now apply rne_nearest.
  - rewrite (Z.mul_comm (2 ^ n1)). apply nearest_even_scale; auto. now apply rne_nearest.
Qed.

(** ** Rounding an exact product to the format *)

Lemma digits2_pos_bounds (m : positive) :
  2 ^ (Z.pos (digits2_pos m) - 1) <= Z.pos m < 2 ^ Z.pos (digits2_pos m).
Proof.
  induction m as [m IH|m IH|]; cbn [digits2_pos].
  - rewrite Pos2Z.inj_succ, (Pos2Z.inj_xI m).
    replace (Z.succ (Z.pos (digits2_pos m)) - 1) with (Z.succ (Z.pos (digits2_pos m) - 1)) by lia.
    rewrite (Z.pow_succ_r 2 (Z.pos (digits2_pos m) - 1)) by lia.
    rewrite (Z.pow_succ_r 2 (Z.pos (digits2_pos m))) by lia. lia.
  - rewrite Pos2Z.inj_succ, (Pos2Z.inj_xO m).
    replace (Z.succ (Z.pos (digits2_pos m)) - 1) with (Z.succ (Z.pos (digits2_pos m) - 1)) by lia.
    rewrite (Z.pow_succ_r 2 (Z.pos (digits2_pos m) - 1)) by lia.
    rewrite (Z.pow_succ_r 2 (Z.pos (digits2_pos m))) by lia. lia.
  - simpl. lia.
Qed.

Lemma digits2_pos_unique (m : positive) (d : Z) :
  2 ^ (d - 1) <= Z.pos m < 2 ^ d -> Z.pos (digits2_pos m) = d.
Proof.
  intros [Hl Hu]. pose proof (digits2_pos_bounds m) as [Hl' Hu'].
  assert (0 < d).
  { destruct (Z.ltb_spec 0 d); auto. exfalso.
    assert (2 ^ d <= 2 ^ 0) by (destruct (Z.ltb_spec d 0);
      [rewrite Z.pow_neg_r by lia; simpl; lia | apply Z.pow_le_mono_r; lia]).
    simpl in *. lia. }
  assert (d - 1 < Z.pos (digits2_pos m)).
  { apply (Z.pow_lt_mono_r_iff 2); lia. }
  assert (Z.pos (digits2_pos m) - 1 < d).
  { apply (Z.pow_lt_mono_r_iff 2); lia. }
  lia.
Qed.

Lemma fexp_eq (e : Z) : fexp prec emax e = Z.max (e - 53) (-1074).
Proof. reflexivity. Qed.

Lemma round_exact (s : bool) (M : positive) (e : Z) :
  let t := fexp prec emax (Z.pos (digits2_pos M) + e) in
  e <= t ->
  binary_round_aux prec emax s (Z.pos M) e loc_Exact
  = finish s (rne (Z.pos M) (t - e)) t
  /\ 0 <= rne (Z.pos M) (t - e) <= 2 ^ 53
  /\ (-1074 < t -> 2 ^ 52 <= rne (Z.pos M) (t - e)).
Proof.
  intros t Ht.
  pose proof (digits2_pos_bounds M) as [HdL HdU].
  set (d := Z.pos (digits2_pos M)) in *.
  assert (Htd : t = Z.max (d + e - 53) (-1074)) by reflexivity.
  set (n := t - e).
  assert (Hn : 0 <= n) by lia.
  assert (HP : 0 < 2 ^ n) by (apply Z.pow_pos_nonneg; lia).
  pose proof (rne_bounds (Z.pos M) n ltac:(lia) Hn) as [HRl HRu].
  set (R := rne (Z.pos M) n) in *.
  assert (Hfloor : Z.pos M / 2 ^ n < 2 ^ 53).
  { apply Z.div_lt_upper_bound; auto.
    destruct (Z.le_gt_cases d 53).
    - assert (2 ^ d <= 2 ^ 53) by (apply Z.pow_le_mono_r; lia).
      nia.
    - assert (2 ^ d = 2 ^ (d - 53) * 2 ^ 53) by (rewrite <- Z.pow_add_r by lia; f_equal; lia).
      assert (2 ^ (d - 53) <= 2 ^ n) by (apply Z.pow_le_mono_r; lia).
      nia. }
  assert (HR0 : 0 <= R) by (pose proof (Z.div_pos (Z.pos M) (2 ^ n) ltac:(lia) HP); lia).
  assert (HR53 : R <= 2 ^ 53) by lia.
  assert (Hnorm : -1074 < t -> 2 ^ 52 <= R).
  { intro Hgt. assert (n = d - 53) by lia.
    assert (2 ^ 52 <= Z.pos M / 2 ^ n); [|lia].
    apply Z.div_le_lower_bound; auto.
    assert (2 ^ (d - 1) = 2 ^ n * 2 ^ 52) by (rewrite <- Z.pow_add_r by lia; f_equal; lia).
    lia. }
  split; [|split; auto].
  unfold binary_round_aux, shr_fexp.
  change (Zdigits2 (Z.pos M)) with d. fold t. fold n.
  change (shr_record_of_loc (Z.pos M) loc_Exact) with (Build_shr_record (Z.pos M) false false).
  pose proof (shr_exact_rne (Z.pos M) e n ltac:(lia) Hn) as Hshr.
  destruct (shr (Build_shr_record (Z.pos M) false false) e n) as [mrs e'].
  destruct Hshr as [HR He']. rewrite HR. fold R.
  replace e' with t by lia.
  unfold finish.
  change (shr_record_of_loc R loc_Exact) with (Build_shr_record R false false).
  destruct (Z.eqb_spec R 0) as [HZ|HZ].
  - rewrite HZ. simpl Zdigits2. rewrite Z.add_0_l, fexp_eq.
    unfold shr. destruct (Z.max (t - 53) (-1074) - t) eqn:E; try lia; reflexivity.
  - destruct (Z.eqb_spec R (2 ^ 53)) as [H53|H53].
    + rewrite H53. change (Zdigits2 (2 ^ 53)) with 54. rewrite fexp_eq.
      replace (Z.max (54 + t - 53) (-1074) - t) with 1 by lia.
      simpl. replace (t + 1 <=? 971) with (t + 1 <=? emax - prec) by reflexivity.
      reflexivity.
    + destruct R as [|R'|R'] eqn:ER; try lia.
      assert (Hd' : Z.pos (digits2_pos R') <= 53).
      { pose proof (digits2_pos_bounds R') as [Hl _].
        destruct (Z.le_gt_cases (Z.pos (digits2_pos R')) 53); auto. exfalso.
        assert (2 ^ 53 <= 2 ^ (Z.pos (digits2_pos R') - 1)) by (apply Z.pow_le_mono_r; lia).
        lia. }
      simpl Zdigits2. rewrite fexp_eq. unfold shr.
      destruct (Z.max (Z.pos (digits2_pos R') + t - 53) (-1074) - t) eqn:E; try lia;
        reflexivity.
Qed.

Lemma leb_finite_pos (m1 : positive) (e1 : Z) (m2 : positive) (e2 : Z) :
  leb (S754_finite false m1 e1) (S754_finite false m2 e2) = true
  <-> e1 < e2 \/ (e1 = e2 /\ Z.pos m1 <= Z.pos m2).
Proof.
  unfold leb, SFleb, SFcompare.
  change (Pos.compare_cont Eq m1 m2) with (Pos.compare m1 m2).
  destruct (Z.compare_spec e1 e2); [destruct (Pos.compare_spec m1 m2)| |];
    split; intro H'; try reflexivity; try discriminate; lia.
Qed.

Lemma finish_mono_same (R1 R2 t : Z) :
  0 <= R1 -> R1 <= R2 -> R2 <= 2 ^ 53 ->
  leb (finish false R1 t) (finish false R2 t) = true.
Proof.
  intros H0 H12 H53. unfold finish.
  destruct (Z.eqb_spec R1 0), (Z.eqb_spec R2 0), (Z.eqb_spec R1 (2 ^ 53)),
    (Z.eqb_spec R2 (2 ^ 53)), (Z.leb_spec (t + 1) 971), (Z.leb_spec t 971);
    try lia; try reflexivity; try (apply leb_finite_pos; rewrite ?Z2Pos.id by lia; lia).
Qed.

Lemma finish_mono_lt (R1 R2 t1 t2 : Z) :
  t1 < t2 -> 0 <= R1 <= 2 ^ 53 -> 2 ^ 52 <= R2 <= 2 ^ 53 ->
  leb (finish false R1 t1) (finish false R2 t2) = true.
Proof.
  intros Ht H1 H2. unfold finish.
  destruct (Z.eqb_spec R1 0), (Z.eqb_spec R2 0), (Z.eqb_spec R1 (2 ^ 53)),
    (Z.eqb_spec R2 (2 ^ 53)), (Z.leb_spec (t1 + 1) 971), (Z.leb_spec t1 971),
    (Z.leb_spec (t2 + 1) 971), (Z.leb_spec t2 971);
    try lia; try reflexivity; try (apply leb_finite_pos; rewrite ?Z2Pos.id by lia; lia).
Qed.

Lemma vle_digits (m1 : positive) (e1 : Z) (m2 : positive) (e2 : Z) :
  vle m1 e1 m2 e2 ->
  Z.pos (digits2_pos m1) + e1 <= Z.pos (digits2_pos m2) + e2.
Proof.
  unfold vle. intro H.
  pose proof (digits2_pos_bounds m1) as [Hl1 _].
  pose proof (digits2_pos_bounds m2) as [_ Hu2].
  set (d1 := Z.pos (digits2_pos m1)) in *. set (d2 := Z.pos (digits2_pos m2)) in *.
  set (e0 := Z.min e1 e2) in *.
  assert (Hd1 : 0 < d1) by (unfold d1; lia).
  assert (Hd2 : 0 < d2) by (unfold d2; lia).
  assert (Ha : 2 ^ (d1 - 1 + (e1 - e0)) <= Z.pos m1 * 2 ^ (e1 - e0)).
  { rewrite Z.pow_add_r by lia. apply Z.mul_le_mono_nonneg_r; auto.
    apply Z.pow_nonneg; lia. }
  assert (Hb : Z.pos m2 * 2 ^ (e2 - e0) < 2 ^ (d2 + (e2 - e0))).
  { rewrite Z.pow_add_r by lia. apply Z.mul_lt_mono_pos_r; auto.
    apply Z.pow_pos_nonneg; lia. }
  assert (d1 - 1 + (e1 - e0) < d2 + (e2 - e0)).
  { apply (Z.pow_lt_mono_r_iff 2); lia. }
  lia.
Qed.

Lemma round_exact_mono (m1 : positive) (e1 : Z) (m2 : positive) (e2 : Z) :
  e1 <= fexp prec emax (Z.pos (digits2_pos m1) + e1) ->
  e2 <= fexp prec emax (Z.pos (digits2_pos m2) + e2) ->
  vle m1 e1 m2 e2 ->
  leb (binary_round_aux prec emax false (Z.pos m1) e1 loc_Exact)
      (binary_round_aux prec emax false (Z.pos m2) e2 loc_Exact) = true.
Proof.
  intros H1 H2 Hv.
  destruct (round_exact false m1 e1 H1) as (-> & HR1 & HN1).
  destruct (round_exact false m2 e2 H2) as (-> & HR2 & HN2).
  pose proof (vle_digits _ _ _ _ Hv) as Hd.
  set (t1 := fexp prec emax (Z.pos (digits2_pos m1) + e1)) in *.
  set (t2 := fexp prec emax (Z.pos (digits2_pos m2) + e2)) in *.
  assert (Ht1 : t1 = Z.max (Z.pos (digits2_pos m1) + e1 - 53) (-1074)) by reflexivity.
  assert (Ht2 : t2 = Z.max (Z.pos (digits2_pos m2) + e2 - 53) (-1074)) by reflexivity.
  clearbody t1 t2.
  assert (Ht : t1 <= t2) by lia.
  destruct (Z.eq_dec t1 t2) as [Heq|Hne].
  - rewrite <- Heq in *. apply finish_mono_same; try lia.
    apply rne_mono; try lia.
    unfold vle in Hv. set (e0 := Z.min e1 e2) in *.
    remember (t1 - e1 - e2 + e0) as k eqn:Hk.
    replace (t1 - e2) with ((e1 - e0) + k) by lia.
    replace (t1 - e1) with ((e2 - e0) + k) by lia.
    rewrite !Z.pow_add_r by lia. rewrite !Z.mul_assoc.
    apply Z.mul_le_mono_nonneg_r; auto; apply Z.pow_nonneg; lia.
  - apply finish_mono_lt; lia.
Qed.

Lemma nonneg_leb_zero (x : float64) : leb (S754_zero false) x = true <-> nonneg x.
Proof.
  destruct x as [s|s| |s m e]; try destruct s; simpl; split; intro H;
    try reflexivity; try exact I; try discriminate; try contradiction.
Qed.

Lemma valid_finite (s : bool) (m : positive) (e : Z) :
  is_float64 (S754_finite s m e) ->
  e = Z.max (Z.pos (digits2_pos m) + e - 53) (-1074) /\ e <= 971.
Proof.
  unfold is_float64, valid_binary, bounded, canonical_mantissa.
  intro H. apply andb_true_iff in H as [H1 H2].
  apply Z.eqb_eq in H1. apply Z.leb_le in H2.
  rewrite fexp_eq in H1. change (emax - prec) with 971 in H2. lia.
Qed.

Lemma finish_valid (s : bool) (R t : Z) :
  -1074 <= t -> 0 <= R <= 2 ^ 53 -> (-1074 < t -> 2 ^ 52 <= R) ->
  is_float64 (finish s R t).
Proof.
  intros Ht HR HN. unfold finish, is_float64.
  destruct (Z.eqb_spec R 0); [reflexivity|].
  destruct (Z.eqb_spec R (2 ^ 53)).
  - destruct (Z.leb_spec (t + 1) 971) as [Hle|Hgt]; [|reflexivity].
    unfold valid_binary, bounded, canonical_mantissa.
    change (Z.pos (digits2_pos (2 ^ 52))) with 53. rewrite fexp_eq.
    apply andb_true_iff; split; [apply Z.eqb_eq; lia | apply Z.leb_le; exact Hle].
  - destruct (Z.leb_spec t 971) as [Hle|Hgt]; [|reflexivity].
    unfold valid_binary, bounded, canonical_mantissa. rewrite fexp_eq.
    apply andb_true_iff; split; [apply Z.eqb_eq | apply Z.leb_le; exact Hle].
    destruct R as [|R'|R']; try lia. simpl Z.to_pos.
    pose proof (digits2_pos_bounds R') as [Hl Hu].
    assert (Hd : Z.pos (digits2_pos R') <= 53).
    { destruct (Z.le_gt_cases (Z.pos (digits2_pos R')) 53); auto. exfalso.
      assert (2 ^ 53 <= 2 ^ (Z.pos (digits2_pos R') - 1)) by (apply Z.pow_le_mono_r; lia).
      lia. }
    destruct (Z.eq_dec t (-1074)); [lia|].
    assert (53 <= Z.pos (digits2_pos R')); [|lia].
    destruct (Z.le_gt_cases 53 (Z.pos (digits2_pos R'))); auto. exfalso.
    assert (2 ^ Z.pos (digits2_pos R') <= 2 ^ 52) by (apply Z.pow_le_mono_r; lia).
    lia.
Qed.

Lemma leb_valid_vle (m1 : positive) (e1 : Z) (m2 : positive) (e2 : Z) :
  is_float64 (S754_finite false m1 e1) -> is_float64 (S754_finite false m2 e2) ->
  leb (S754_finite false m1 e1) (S754_finite false m2 e2) = true ->
  vle m1 e1 m2 e2.
Proof.
  intros V1 V2 H. apply valid_finite in V1, V2. apply leb_finite_pos in H.
  unfold vle. destruct H as [Hlt|[-> Hm]].
  - rewrite Z.min_l by lia. rewrite Z.sub_diag, Z.mul_1_r.
    pose proof (digits2_pos_bounds m1) as [_ Hu1].
    pose proof (digits2_pos_bounds m2) as [Hl2 _].
    assert (Hd2 : Z.pos (digits2_pos m2) = 53) by lia.
    rewrite Hd2 in Hl2.
    assert (Z.pos m1 < 2 ^ 53).
    { apply Z.lt_le_trans with (1 := Hu1). apply Z.pow_le_mono_r; lia. }
    assert (2 ^ 1 <= 2 ^ (e2 - e1)) by (apply Z.pow_le_mono_r; lia).
    change (2 ^ (53 - 1)) with (2 ^ 52) in Hl2. change (2 ^ 1) with 2 in *.
    change (2 ^ 53) with (2 * 2 ^ 52) in *. nia.
  - rewrite Z.min_id, Z.sub_diag. lia.
Qed.

(** ** Multiplication by 100 *)

Lemma of_Z_100 : of_Z 100 = S754_finite false m100 (-46).
Proof. reflexivity. Qed.

Lemma mul_100_shift (m : positive) (e : Z) :
  e + -46 <= fexp prec emax (Z.pos (digits2_pos (m * m100)) + (e + -46)).
Proof.
  rewrite fexp_eq.
  pose proof (digits2_pos_bounds (m * m100)) as [_ Hu].
  set (D := Z.pos (digits2_pos (m * m100))) in *.
  assert (HD : 0 < D) by (unfold D; lia).
  assert (52 < D); [|lia].
  apply (Z.pow_lt_mono_r_iff 2); try lia.
  apply Z.le_lt_trans with (2 := Hu).
  rewrite Pos2Z.inj_mul. change (2 ^ 52) with (1 * 2 ^ 52).
  apply Z.mul_le_mono_nonneg; try lia. unfold m100. lia.
Qed.

Lemma vle_mul (m1 : positive) (e1 : Z) (m2 : positive) (e2 : Z) (c : positive) (k : Z) :
  vle m1 e1 m2 e2 -> vle (m1 * c) (e1 + k) (m2 * c) (e2 + k).
Proof.
  unfold vle. intro H.
  rewrite Z.add_min_distr_r.
  replace (e1 + k - (Z.min e1 e2 + k)) with (e1 - Z.min e1 e2) by lia.
  replace (e2 + k - (Z.min e1 e2 + k)) with (e2 - Z.min e1 e2) by lia.
  rewrite !Pos2Z.inj_mul. nia.
Qed.

Lemma mul_100_finite (m : positive) (e : Z) :
  mul (S754_finite false m e) (of_Z 100)
  = binary_round_aux prec emax false (Z.pos (m * m100)) (e + -46) loc_Exact.
Proof. reflexivity. Qed.

Lemma mul_100_valid (x : float64) :
  is_float64 x -> nonneg x ->
  is_float64 (mul x (of_Z 100)) /\ nonneg (mul x (of_Z 100)).
Proof.
  intros V N. destruct x as [s|s| |s m e]; try destruct s; try contradiction;
    try (split; [reflexivity|exact I]).
  rewrite mul_100_finite.
  destruct (round_exact false (m * m100) (e + -46) (mul_100_shift m e)) as (-> & HR & HN).
  split.
  - apply finish_valid; auto. rewrite fexp_eq. lia.
  - unfold finish.
    destruct (_ =? 0); [exact I|].
    destruct (_ =? 2 ^ 53); [destruct (_ <=? 971); exact I|].
    destruct (_ <=? 971); exact I.
Qed.

Lemma leb_nonneg_infinity (x : float64) :
  nonneg x -> leb x (S754_infinity false) = true.
Proof. destruct x as [s|s| |s m e]; try destruct s; simpl; intro H; auto; contradiction. Qed.

Lemma leb_zero_nonneg (s : bool) (x : float64) :
  nonneg x -> leb (S754_zero s) x = true.
Proof. destruct x as [s'|s'| |s' m e]; try destruct s'; simpl; intro H; auto; contradiction. Qed.

Lemma mul_100_mono (x y : float64) :
  is_float64 x -> is_float64 y -> nonneg x -> nonneg y ->
  leb x y = true -> leb (mul x (of_Z 100)) (mul y (of_Z 100)) = true.
Proof.
  intros Vx Vy Nx Ny H.
  pose proof (mul_100_valid y Vy Ny) as [_ Ny'].
  pose proof (mul_100_valid x Vx Nx) as [_ Nx'].
  destruct x as [sx|sx| |sx mx ex]; try contradiction.
  - change (mul (S754_zero sx) (of_Z 100)) with (S754_zero (xorb sx false)).
    now apply leb_zero_nonneg.
  - destruct sx; try contradiction.
    destruct y as [sy|sy| |sy my ey]; try destruct sy; try discriminate; reflexivity.
  - destruct sx; try contradiction.
    destruct y as [sy|sy| |sy my ey]; try destruct sy; try contradiction; try discriminate.
    + change (mul (S754_infinity false) (of_Z 100)) with (S754_infinity false).
      now apply leb_nonneg_infinity.
    + rewrite !mul_100_finite.
      apply round_exact_mono; try apply mul_100_shift.
      apply vle_mul. now apply leb_valid_vle.
Qed.

Lemma leb_trans (a b c : float64) :
  leb a b = true -> leb b c = true -> leb a c = true.
Proof.
  unfold leb, SFleb.
  destruct a as [sa|sa| |sa ma ea], b as [sb|sb| |sb mb eb], c as [sc|sc| |sc mc ec]; simpl;
    try destruct sa; try destruct sb; try destruct sc; simpl; try congruence;
    cmp_cases; simpl; try congruence; try lia.
Qed.

Lemma leb_refl (a : float64) : is_nan a = false -> leb a a = true.
Proof.
  unfold leb, SFleb.
  destruct a as [sa|sa| |sa ma ea]; simpl; try destruct sa; simpl; try congruence;
    cmp_cases; simpl; try congruence; try lia.
Qed.

Lemma of_Z_10000 : of_Z 10000 = S754_finite false 5497558138880000 (-39).
Proof. reflexivity. Qed.

(** ** [rint] on small values *)

Lemma rint_small (x : float64) :
  nonneg x -> leb x (of_Z 10000) = true ->
  match x with
  | S754_zero s => rint x = S754_zero s
  | _ => rint x = of_Z (nearest_int x)
  end.
Proof.
  intros N H. destruct x as [s|s| |s m e]; try destruct s; try contradiction;
    try discriminate; try reflexivity.
  rewrite of_Z_10000 in H. apply leb_finite_pos in H.
  assert (He : e < 0) by lia.
  unfold rint. destruct (Z.leb_spec 0 e); [lia|].
  change (shr_record_of_loc (Z.pos m) loc_Exact) with (Build_shr_record (Z.pos m) false false).
  pose proof (shr_exact_rne (Z.pos m) e (- e) ltac:(lia) ltac:(lia)) as Hs.
  destruct (shr (Build_shr_record (Z.pos m) false false) e (- e)) as [mrs e'].
  destruct Hs as [-> _]. reflexivity.
Qed.

Lemma nearest_int_mono (x y : float64) :
  is_float64 x -> is_float64 y -> nonneg x -> nonneg y ->
  leb x y = true -> leb y (of_Z 10000) = true ->
  0 <= nearest_int x <= nearest_int y.
Proof.
  intros Vx Vy Nx Ny Hxy Hy.
  destruct y as [sy|[|]| |[|] my ey]; try contradiction; try discriminate.
  - destruct x as [sx|[|]| |[|] mx ex]; try contradiction;
      try discriminate; simpl; lia.
  - destruct x as [sx|[|]| |[|] mx ex]; try contradiction;
      try discriminate.
    + simpl. pose proof (rne_bounds (Z.pos my) (- ey)).
      rewrite of_Z_10000 in Hy. apply leb_finite_pos in Hy.
      pose proof (Z.div_pos (Z.pos my) (2 ^ (- ey)) ltac:(lia)
                    ltac:(apply Z.pow_pos_nonneg; lia)). lia.
    + pose proof (leb_valid_vle _ _ _ _ Vx Vy Hxy) as Hv.
      rewrite of_Z_10000 in Hy. apply leb_finite_pos in Hy.
      apply leb_finite_pos in Hxy.
      assert (ey < 0) by lia. assert (ex < 0) by lia.
      unfold nearest_int. split.
      * pose proof (rne_bounds (Z.pos mx) (- ex)).
        pose proof (Z.div_pos (Z.pos mx) (2 ^ (- ex)) ltac:(lia)
                      ltac:(apply Z.pow_pos_nonneg; lia)). lia.
      * apply rne_mono; try lia.
        unfold vle in Hv. set (e0 := Z.min ex ey) in *.
        remember (e0 - ex - ey) as k eqn:Hk.
        replace (- ey) with ((ex - e0) + k) by lia.
        replace (- ex) with ((ey - e0) + k) by lia.
        rewrite !Z.pow_add_r by lia. rewrite !Z.mul_assoc.
        apply Z.mul_le_mono_nonneg_r; auto; apply Z.pow_nonneg; lia.
Qed.

Lemma nearest_int_10000 : nearest_int (of_Z 10000) = 10000.
Proof. vm_compute. reflexivity. Qed.

(** ** Division of an integer by 100 *)

Lemma steps_ok_spec (n : nat) (k0 k : Z) :
  steps_ok n k0 = true -> k0 <= k < k0 + Z.of_nat n ->
  leb (hundredths k) (hundredths (k + 1)) = true.
Proof.
  revert k0; induction n as [|n IH]; intros k0 H Hk; [lia|].
  cbn [steps_ok] in H. apply andb_true_iff in H as [H1 H2].
  destruct (Z.eq_dec k k0) as [->|Hne]; auto.
  apply (IH (k0 + 1)); auto. lia.
Qed.

Lemma hundredths_table : steps_ok (Z.to_nat 10000) 0 = true.
Proof. vm_compute. reflexivity. Qed.

Lemma hundredths_step (k : Z) :
  0 <= k < 10000 -> leb (hundredths k) (hundredths (k + 1)) = true.
Proof.
  intro Hk. apply (steps_ok_spec _ _ _ hundredths_table). lia.
Qed.

Lemma hundredths_mono (k1 k2 : Z) :
  0 <= k1 -> k1 <= k2 -> k2 <= 10000 ->
  leb (hundredths k1) (hundredths k2) = true.
Proof.
  intros H0 H12 H2.
  replace k2 with (k1 + Z.of_nat (Z.to_nat (k2 - k1))) in * by lia.
  induction (Z.to_nat (k2 - k1)) as [|n IH].
  - rewrite Z.add_0_r.
    destruct (Z.eq_dec k1 10000) as [->|].
    + vm_compute. reflexivity.
    + pose proof (hundredths_step k1 ltac:(lia)) as Hs.
      unfold leb, SFleb in *. destruct (hundredths k1) as [s|s| |s m e]; try destruct s;
        simpl in *; try reflexivity; try discriminate.
      * rewrite Z.compare_refl, Pos.compare_cont_refl. reflexivity.
      * rewrite Z.compare_refl, Pos.compare_cont_refl. reflexivity.
  - rewrite Nat2Z.inj_succ in *.
    apply leb_trans with (hundredths (k1 + Z.of_nat n)).
    + apply IH; lia.
    + replace (k1 + Z.succ (Z.of_nat n)) with (k1 + Z.of_nat n + 1) by lia.
      apply hundredths_step. lia.
Qed.

(** ** [round(prob * 100, 2)] on a probability *)

Lemma percentage_unfold (p : float64) :
  percentage p = div (rint (mul (mul p (of_Z 100)) (of_Z 100))) (of_Z 100).
Proof. reflexivity. Qed.

Lemma eqb_leb_l (a a' b : float64) :
  eqb a a' = true -> leb a' b = true -> leb a b = true.
Proof.
  unfold eqb, leb, SFeqb, SFleb.
  destruct a as [sa|sa| |sa ma ea], a' as [sb|sb| |sb mb eb], b as [sc|sc| |sc mc ec]; simpl;
    try destruct sa; try destruct sb; try destruct sc; simpl; try congruence;
    cmp_cases; simpl; try congruence; try lia.
Qed.

Lemma eqb_leb_r (a b b' : float64) :
  eqb b b' = true -> leb a b' = true -> leb a b = true.
Proof.
  unfold eqb, leb, SFeqb, SFleb.
  destruct a as [sa|sa| |sa ma ea], b as [sb|sb| |sb mb eb], b' as [sc|sc| |sc mc ec]; simpl;
    try destruct sa; try destruct sb; try destruct sc; simpl; try congruence;
    cmp_cases; simpl; try congruence; try lia.
Qed.

Lemma eqb_refl (a : float64) : is_nan a = false -> eqb a a = true.
Proof.
  unfold eqb, SFeqb.
  destruct a as [sa|sa| |sa ma ea]; simpl; try destruct sa; simpl; try congruence;
    cmp_cases; simpl; try congruence; try lia.
Qed.

Lemma leb_not_nan (a b : float64) : leb a b = true -> is_nan a = false /\ is_nan b = false.
Proof.
  destruct a, b; simpl; try discriminate; auto.
Qed.

Lemma scaled_probability (p : float64) :
  is_probability p ->
  let t := mul (mul p (of_Z 100)) (of_Z 100) in
  is_float64 t /\ nonneg t /\ leb t (of_Z 10000) = true.
Proof.
  intros (V & H0 & H1) t.
  apply nonneg_leb_zero in H0.
  destruct (mul_100_valid p V H0) as [V1 N1].
  destruct (mul_100_valid _ V1 N1) as [V2 N2].
  repeat split; auto.
  change (of_Z 10000) with (mul (mul (of_Z 1) (of_Z 100)) (of_Z 100)).
  apply mul_100_mono; auto; try reflexivity; try exact I.
  apply mul_100_mono; auto; try reflexivity; try exact I.
Qed.

Lemma percentage_hundredths (p : float64) :
  is_probability p ->
  let k := nearest_int (mul (mul p (of_Z 100)) (of_Z 100)) in
  0 <= k <= 10000 /\ eqb (percentage p) (hundredths k) = true.
Proof.
  intros Hp k. destruct (scaled_probability p Hp) as (V & N & H).
  split.
  - rewrite <- nearest_int_10000.
    apply nearest_int_mono; auto; try reflexivity; try exact I.
  - rewrite percentage_unfold.
    pose proof (rint_small _ N H) as Hr. subst k.
    destruct (mul (mul p (of_Z 100)) (of_Z 100)) as [s|[|]| |[|] m e];
      try contradiction; try discriminate.
    + rewrite Hr. destruct s; reflexivity.
    + rewrite Hr. apply eqb_refl.
      destruct (nearest_int_mono _ _ V V N N (leb_refl (S754_finite false m e) eq_refl) H) as [Hk0 _].
      assert (Hk : nearest_int (S754_finite false m e) <= 10000).
      { rewrite <- nearest_int_10000. apply nearest_int_mono; auto; try reflexivity; try exact I. }
      pose proof (hundredths_mono _ _ Hk0 Hk (Z.le_refl _)) as Hl.
      apply leb_not_nan in Hl. apply Hl.
Qed.


Lemma percentage_mono (p q : float64) :
  is_probability p -> is_probability q -> leb p q = true ->
  leb (percentage p) (percentage q) = true.
Proof.
  intros Hp Hq Hpq.
  destruct (percentage_hundredths p Hp) as [Hkp Hep].
  destruct (percentage_hundredths q Hq) as [Hkq Heq].
  destruct (scaled_probability p Hp) as (Vp & Np & HHp).
  destruct (scaled_probability q Hq) as (Vq & Nq & HHq).
  apply eqb_leb_l with (1 := Hep).
  apply eqb_leb_r with (1 := Heq).
  apply hundredths_mono; try lia.
  apply nearest_int_mono; auto.
  destruct Hp as (Vp0 & H0p & H1p). destruct Hq as (Vq0 & H0q & H1q).
  apply nonneg_leb_zero in H0p, H0q.
  destruct (mul_100_valid p Vp0 H0p) as [V1 N1].
  destruct (mul_100_valid q Vq0 H0q) as [V1' N1'].
  apply mul_100_mono; auto. apply mul_100_mono; auto.
Qed.

(** ** The selection of the three best classes *)

Lemma DataFrame_row_ok (row : list float64) (cols : list string) :
  List.length row = List.length cols ->
  DataFrame [row] cols = Ok {| columns := cols; rows := [row] |}.
Proof.
  intro H. unfold DataFrame, width. cbn [fold_right map].
  rewrite Nat.max_0_r, H, Nat.eqb_refl.
  unfold pad. rewrite H, Nat.sub_diag. simpl repeat. now rewrite app_nil_r.
Qed.

Lemma DataFrame_row_error (row : list float64) (cols : list string) :
  List.length row <> List.length cols ->
  DataFrame [row] cols
  = Raise (ValueError (str_of_nat (List.length cols) ++ " columns passed, passed data had "
                         ++ str_of_nat (List.length row) ++ " columns")%string).
Proof.
  intro H. unfold DataFrame, width. cbn [fold_right].
  rewrite Nat.max_0_r. apply Nat.eqb_neq in H. now rewrite H.
Qed.

Lemma predict_top3_eq (model : Classifier) (user_input probs : list float64)
      (more : list (list float64)) :
  List.length user_input = 7%nat ->
  predict_proba model (frame user_input) = Ok (probs :: more) ->
  Predict.predict_top3 model user_input
  = Ok (map as_percentage (top3 (classes_ model) probs)).
Proof.
  intros Hlen Hp. unfold Predict.predict_top3.
  rewrite DataFrame_row_ok by exact Hlen.
  cbn [bind]. unfold frame in Hp. rewrite Hp. reflexivity.
Qed.

Lemma In_firstn {A : Type} (n : nat) (l : list A) (x : A) :
  In x (firstn n l) -> In x l.
Proof.
  intro H. rewrite <- (firstn_skipn n l). apply in_or_app. now left.
Qed.

Lemma top3_length (classes : list string) (probs : list float64) :
  List.length (top3 classes probs)
  = Nat.min 3 (Nat.min (List.length classes) (List.length probs)).
Proof.
  unfold top3. now rewrite length_firstn, sorted_length, length_combine.
Qed.

Lemma top3_incl (classes : list string) (probs : list float64) (r : string * float64) :
  In r (top3 classes probs) -> In r (combine classes probs).
Proof.
  unfold top3. intro H. apply In_firstn in H.
  now apply (Permutation_in _ (sorted_perm ltb snd true _)) in H.
Qed.

Lemma ltb_false_leb (a b : float64) :
  not_nan a -> not_nan b -> ltb a b = false -> leb b a = true.
Proof.
  unfold not_nan, ltb, leb, SFltb, SFleb.
  destruct a as [sa|sa| |sa ma ea], b as [sb|sb| |sb mb eb]; simpl;
    try destruct sa; try destruct sb; simpl; try congruence;
    cmp_cases; simpl; try congruence; try lia.
Qed.

Lemma probability_not_nan (p : float64) : is_probability p -> not_nan p.
Proof. intros (_ & _ & H). now apply leb_not_nan in H. Qed.

Lemma StronglySorted_firstn {A : Type} (R : A -> A -> Prop) (n : nat) (l : list A) :
  StronglySorted R l -> StronglySorted R (firstn n l).
Proof.
  intro H. revert n. induction H as [|a l Hl IH Ha]; intro n.
  - rewrite firstn_nil. constructor.
  - destruct n as [|n]; simpl; constructor; auto.
    rewrite Forall_forall in Ha |- *. intros x Hx. apply Ha. now apply In_firstn in Hx.
Qed.

Lemma StronglySorted_map {A B : Type} (R : A -> A -> Prop) (R' : B -> B -> Prop)
      (f : A -> B) (l : list A) :
  (forall a b, In a l -> In b l -> R a b -> R' (f a) (f b)) ->
  StronglySorted R l -> StronglySorted R' (map f l).
Proof.
  intros Hf H. induction H as [|a l Hl IH Ha]; simpl.
  - constructor.
  - constructor.
    + apply IH. intros; apply Hf; simpl; auto.
    + rewrite Forall_forall in Ha |- *. intros y Hy.
      apply in_map_iff in Hy as (x & <- & Hx). apply Hf; simpl; auto.
Qed.

Lemma combine_Forall_snd {A B : Type} (P : B -> Prop) (l : list A) (l' : list B) :
  Forall P l' -> Forall (fun r => P (snd r)) (combine l l').
Proof.
  intro H. rewrite Forall_forall in H |- *. intros [a b] Hr.
  apply in_combine_r in Hr. now apply H.
Qed.

Lemma top3_descending (classes : list string) (probs : list float64) :
  Forall not_nan probs ->
  descending ltb snd (top3 classes probs).
Proof.
  intro H. unfold top3, descending. apply StronglySorted_firstn.
  apply (sorted_reverse_descending ltb snd not_nan).
  - exact ltb_asym.
  - exact ltb_neg_trans.
  - now apply combine_Forall_snd.
Qed.

(** Each entry of the result is a pair of the classifier's answer, its
    probability scaled and rounded, whatever the order of the sort. *)
Lemma as_percentage_from_pairs (classes : list string) (probs : list float64) :
  Forall (fun r => exists prob,
              In (fst r, prob) (combine classes probs)
              /\ snd r = round (mul prob (of_Z 100)) 2)
         (map as_percentage (top3 classes probs)).
Proof.
  rewrite Forall_forall. intros r Hr.
  apply in_map_iff in Hr as ([c p] & <- & Hr).
  apply top3_incl in Hr. exists p. auto.
Qed.

(** *** [predict_top3] on any list of values *)

Lemma Dynamic_DataFrame_row_ok (row : list Dynamic.pyvalue) (cols : list string) :
  List.length row = List.length cols ->
  Dynamic.DataFrame [row] cols = Ok {| Dynamic.columns := cols; Dynamic.rows := [row] |}.
Proof.
  intro H. unfold Dynamic.DataFrame, Dynamic.width. cbn [fold_right map].
  rewrite Nat.max_0_r, H, Nat.eqb_refl.
  unfold Dynamic.pad. rewrite H, Nat.sub_diag. simpl repeat. now rewrite app_nil_r.
Qed.

Lemma Dynamic_DataFrame_row_error (row : list Dynamic.pyvalue) (cols : list string) :
  List.length row <> List.length cols ->
  Dynamic.DataFrame [row] cols
  = Raise (ValueError (str_of_nat (List.length cols) ++ " columns passed, passed data had "
                         ++ str_of_nat (List.length row) ++ " columns")%string).
Proof.
  intro H. unfold Dynamic.DataFrame, Dynamic.width. cbn [fold_right].
  rewrite Nat.max_0_r. apply Nat.eqb_neq in H. now rewrite H.
Qed.

(** On numbers, [predict_top3] on any values is the [predict_top3] above. *)
Lemma Dynamic_predict_top3_on_numbers (model : Dynamic.Classifier) (user_input : list float64) :
  Dynamic.predict_top3 model (map Dynamic.PyFloat user_input)
  = Predict.predict_top3 (on_numbers model) user_input.
Proof.
  unfold Dynamic.predict_top3, Predict.predict_top3.
  destruct (Nat.eq_dec (List.length user_input) 7) as [Hlen|Hlen].
  - rewrite Dynamic_DataFrame_row_ok by (rewrite length_map; exact Hlen).
    rewrite DataFrame_row_ok by exact Hlen. reflexivity.
  - rewrite Dynamic_DataFrame_row_error by (rewrite length_map; exact Hlen).
    rewrite DataFrame_row_error by exact Hlen. rewrite length_map. reflexivity.
Qed.

(** ** The command-line adapter *)

Import PredictWrapper.

Lemma map_result_length {A B : Type} (f : A -> result B) (l : list A) (bs : list B) :
  map_result f l = Ok bs -> List.length bs = List.length l.
Proof.
  revert bs; induction l as [|a l IH]; intros bs H; simpl in H.
  - now inversion H.
  - destruct (f a); [|discriminate].
    destruct (map_result f l); [|discriminate].
    inversion H; subst. simpl. f_equal. now apply IH.
Qed.

Lemma predict_wrong_count (model : Classifier) (args : list string) :
  List.length args <> 7%nat ->
  predict model args = ([failure_envelope EXPECTED_7], Ok tt).
Proof.
  intro H. unfold predict. apply Nat.eqb_neq in H. rewrite H. reflexivity.
Qed.

Lemma predict_parsed (model : Classifier) (args : list string) (inputs : list float64) :
  List.length args = 7%nat -> map_result float args = Ok inputs ->
  predict model args
  = match predict_proba model (frame inputs) with
    | Ok (probs :: _) =>
        ([success_envelope (map as_percentage (top3 (classes_ model) probs))], Ok tt)
    | Ok [] =>
        ([failure_envelope "index 0 is out of bounds for axis 0 with size 0"], Ok tt)
    | Raise e => ([failure_envelope (str_exn e)], Ok tt)
    end.
Proof.
  intros Hlen Hparse. unfold predict.
  rewrite Hlen, Hparse. cbn [Nat.eqb negb ret lift io_bind app].
  rewrite DataFrame_row_ok
    by (rewrite (map_result_length _ _ _ Hparse), Hlen; reflexivity).
  change (predict_proba model {| columns := FEATURES; rows := [inputs] |})
    with (predict_proba model (frame inputs)).
  destruct (predict_proba model (frame inputs)) as [[|probs more]|e]; try reflexivity.
  unfold success_envelope, top3. rewrite map_map.
  rewrite (map_ext _ recommendation) by (intros [c p]; reflexivity).
  reflexivity.
Qed.

Lemma predict_unparsed (model : Classifier) (args : list string) (e : exn) :
  List.length args = 7%nat -> map_result float args = Raise e ->
  predict model args = ([failure_envelope (str_exn e)], Ok tt).
Proof.
  intros Hlen Hparse. unfold predict. rewrite Hlen, Hparse. reflexivity.
Qed.

Lemma predict_success (model : Classifier) (args : list string)
      (inputs probs : list float64) (more : list (list float64)) :
  List.length inputs = 7%nat ->
  predict_proba model (frame inputs) = Ok (probs :: more) ->
  map_result float args = Ok inputs ->
  predict model args
  = ([success_envelope (map as_percentage (top3 (classes_ model) probs))], Ok tt).
Proof.
  intros Hlen Hp Hargs.
  rewrite (predict_parsed model args inputs); auto.
  - now rewrite Hp.
  - now rewrite <- (map_result_length _ _ _ Hargs).
Qed.

Lemma float_raise (x : string) (e : exn) :
  float x = Raise e ->
  e = ValueError ("could not convert string to float: " ++ repr x)%string.
Proof.
  unfold float. intro H.
  destruct (drop_underscores _ _) as [l|]; [|now inversion H].
  destruct (string_to_double _); [discriminate|now inversion H].
Qed.

Lemma map_result_raise {A B : Type} (f : A -> result B) (l : list A) (e : exn) :
  map_result f l = Raise e -> exists x, In x l /\ f x = Raise e.
Proof.
  induction l as [|a l IH]; simpl; intro H; [discriminate|].
  destruct (f a) eqn:Ea.
  - destruct (map_result f l); [discriminate|].
    inversion H; subst. destruct IH as (x & Hx & Hf); auto. exists x; auto.
  - inversion H; subst. exists a; auto.
Qed.

Lemma map_result_Exists {A B : Type} (f : A -> result B) (l : list A) :
  Exists (fun x => exists e, f x = Raise e) l -> exists e, map_result f l = Raise e.
Proof.
  induction 1 as [a l (e & He)|a l H IH]; simpl.
  - exists e. now rewrite He.
  - destruct (f a) as [b|e]; [|now exists e].
    destruct IH as (e & ->). now exists e.
Qed.

Lemma bad_arguments_message (args : list string) :
  List.length args <> 7%nat \/ Exists non_numeric args ->
  exists msg,
    (forall model, predict model args = ([failure_envelope msg], Ok tt))
    /\ msg <> ""
    /\ (List.length args <> 7%nat -> msg = EXPECTED_7)
    /\ (List.length args = 7%nat ->
        exists x, In x args /\ non_numeric x
                  /\ msg = ("could not convert string to float: " ++ repr x)%string).
Proof.
  intro Hbad.
  destruct (Nat.eq_dec (List.length args) 7) as [Hlen|Hlen].
  - destruct Hbad as [Hbad|Hbad]; [contradiction|].
    destruct (map_result_Exists float args Hbad) as (e & He).
    destruct (map_result_raise _ _ _ He) as (x & Hx & Hfx).
    pose proof (float_raise _ _ Hfx) as Ee.
    exists ("could not convert string to float: " ++ repr x)%string.
    repeat split.
    + intro model. rewrite (predict_unparsed model args e Hlen He), Ee. reflexivity.
    + discriminate.
    + intro; contradiction.
    + intros _. exists x. repeat split; auto. now exists e.
  - exists EXPECTED_7. repeat split.
    + intro model. now apply predict_wrong_count.
    + discriminate.
    + intro; contradiction.
Qed.

Lemma predict_total (model : Classifier) (args : list string) :
  exists doc,
    predict model args = ([doc], Ok tt)
    /\ ((exists recs, doc = success_envelope recs)
        \/ (exists msg, doc = failure_envelope msg)).
Proof.
  destruct (Nat.eq_dec (List.length args) 7) as [Hlen|Hlen].
  - destruct (map_result float args) as [inputs|e] eqn:Hparse.
    + rewrite (predict_parsed model args inputs Hlen Hparse).
      destruct (predict_proba model (frame inputs)) as [[|probs more]|e]; eauto.
    + rewrite (predict_unparsed model args e Hlen Hparse). eauto.
  - rewrite (predict_wrong_count model args Hlen). eauto.
Qed.

Lemma NoDup_firstn {A : Type} (n : nat) (l : list A) : NoDup l -> NoDup (firstn n l).
Proof.
  intro H. revert n. induction H as [|a l Ha Hl IH]; intro n.
  - rewrite firstn_nil. constructor.
  - destruct n as [|n]; simpl; constructor; auto.
    intro Hin. apply Ha. now apply In_firstn in Hin.
Qed.

Lemma combine_nth_error {A B : Type} (l : list A) (l' : list B) (a : A) (b : B) :
  In (a, b) (combine l l') ->
  exists i, nth_error l i = Some a /\ nth_error l' i = Some b.
Proof.
  revert l'; induction l as [|x l IH]; intros [|y l'] H; simpl in H; try contradiction.
  destruct H as [H|H].
  - inversion H; subst. now exists 0%nat.
  - destruct (IH l' H) as (i & Hi & Hi'). now exists (S i).
Qed.

Lemma combine_fst_firstn {A B : Type} (l : list A) (l' : list B) :
  map fst (combine l l') = firstn (List.length l') l.
Proof.
  revert l'; induction l as [|x l IH]; intros [|y l']; simpl; auto.
  now rewrite IH.
Qed.

(** * The claims *)

(** ** Worked requests *)

Example predict_top3_sample :
  Predict.predict_top3 example_model sample
  = Ok [("banana", hundredths 4000); ("apple", hundredths 2500); ("maize", hundredths 2500)].
Proof. vm_compute. reflexivity. Qed.

Example predict_top3_six_values :
  Predict.predict_top3 example_model (firstn 6 sample)
  = Raise (ValueError "7 columns passed, passed data had 6 columns").
Proof. vm_compute. reflexivity. Qed.

Example float_of_abc :
  float "abc" = Raise (ValueError "could not convert string to float: 'abc'").
Proof. vm_compute. reflexivity. Qed.

Example float_of_nan_and_inf :
  float "nan" = Ok S754_nan /\ float "inf" = Ok (S754_infinity false)
  /\ float " -Infinity " = Ok (S754_infinity true).
Proof. vm_compute. auto. Qed.

Example float_of_decimals :
  float "25.5" = Ok (of_decimal false 255 (-1)) /\ float "1_0e-1" = Ok (of_Z 1).
Proof. vm_compute. auto. Qed.

Example main_six_arguments :
  main (Ok example_model) ["predict_wrapper.py"; "90"; "40"; "40"; "25.5"; "75"; "6.8"]
  = ([failure_envelope EXPECTED_7], 0).
Proof. vm_compute. reflexivity. Qed.

Example main_sample :
  main (Ok example_model)
       ["predict_wrapper.py"; "90"; "40"; "40"; "25.5"; "75"; "6.8"; "180"]
  = ([success_envelope
        [("banana", hundredths 4000); ("apple", hundredths 2500);
         ("maize", hundredths 2500)]], 0).
Proof. vm_compute. reflexivity. Qed.

(** ** The recommendation list *)

(** C1. For a feature vector of length 7 and a classifier that answers with
    a row of probabilities, [predict_top3] returns at most three
    [(label, percentage)] pairs, in non-increasing order of percentage.  Their
    number is the smaller of 3 and the number of classes paired with a
    probability: with fewer than three classes the list has exactly that
    many entries, each labelled by a class of the classifier, and nothing is
    added to fill it up.  The command-line adapter prints the same list. *)
Theorem predict_top3_at_most_three_sorted
        (model : Classifier) (user_input probs : list float64) (more : list (list float64)) :
  List.length user_input = 7%nat ->
  predict_proba model (frame user_input) = Ok (probs :: more) ->
  Forall is_probability probs ->
  exists recs,
    Predict.predict_top3 model user_input = Ok recs
    /\ (List.length recs <= 3)%nat
    /\ StronglySorted (fun a b => leb (snd b) (snd a) = true) recs
    /\ List.length recs
       = Nat.min 3 (Nat.min (List.length (classes_ model)) (List.length probs))
    /\ (List.length probs = List.length (classes_ model) ->
        (List.length (classes_ model) < 3)%nat ->
        List.length recs = List.length (classes_ model))
    /\ Forall (fun r => In (fst r) (classes_ model)) recs
    /\ (forall args,
           map_result float args = Ok user_input ->
           predict model args = ([success_envelope recs], Ok tt)).
Proof.
  intros Hlen Hp Hprob.
  exists (map as_percentage (top3 (classes_ model) probs)).
  split; [now apply predict_top3_eq with more|].
  rewrite length_map, top3_length.
  repeat split; try lia.
  - apply StronglySorted_map with (R := fun a b => ltb (snd a) (snd b) = false).
    + intros [c p] [c' p'] Ha Hb Hlt. cbn [snd] in Hlt.
      apply top3_incl, in_combine_r in Ha, Hb.
      rewrite Forall_forall in Hprob.
      change (leb (percentage p') (percentage p) = true).
      apply percentage_mono; auto.
      apply ltb_false_leb; auto; apply probability_not_nan; auto.
    + apply top3_descending.
      eapply Forall_impl; [|exact Hprob]. apply probability_not_nan.
  - rewrite Forall_forall. intros r Hr.
    apply in_map_iff in Hr as ([c p] & <- & Hr).
    apply top3_incl, in_combine_l in Hr. exact Hr.
  - intros args Hargs.
    now apply predict_success with user_input more.
Qed.

Lemma predict_top3_at_most_three_sorted_witness :
  exists recs,
    Predict.predict_top3 example_model sample = Ok recs
    /\ (List.length recs <= 3)%nat
    /\ StronglySorted (fun a b => leb (snd b) (snd a) = true) recs.
Proof.
  destruct (predict_top3_at_most_three_sorted example_model sample example_probs [])
    as (recs & H1 & H2 & H3 & _).
  - reflexivity.
  - reflexivity.
  - repeat constructor.
  - exists recs. auto.
Defined.



(** C7. When the classifier gives several classes the same probability, the
    sort keeps them in the order of the [(class, probability)] pairing, that
    is in the classifier's class order: the pairs tied at any probability [p]
    read the same after [sorted] as before, and the ones among the three
    chosen are the first of them. *)
Theorem predict_top3_stable
        (model : Classifier) (user_input probs : list float64) (more : list (list float64))
        (p : float64) :
  List.length user_input = 7%nat ->
  predict_proba model (frame user_input) = Ok (probs :: more) ->
  Forall not_nan probs -> not_nan p ->
  let tied := fun r : string * float64 => same_key ltb p (snd r) in
  let pairs := combine (classes_ model) probs in
  filter tied (sorted ltb snd true pairs) = filter tied pairs
  /\ exists chosen,
      Predict.predict_top3 model user_input = Ok (map as_percentage chosen)
      /\ chosen = firstn 3 (sorted ltb snd true pairs)
      /\ exists rest, filter tied pairs = filter tied chosen ++ rest.
Proof.
  intros Hlen Hp Hnan Hpn tied pairs.
  assert (Hst : filter tied (sorted ltb snd true pairs) = filter tied pairs).
  { apply (sorted_stable ltb snd not_nan ltb_asym ltb_neg_trans); auto.
    now apply combine_Forall_snd. }
  split; [exact Hst|].
  exists (top3 (classes_ model) probs).
  split; [now apply predict_top3_eq with more|].
  split; [reflexivity|].
  exists (filter tied (skipn 3 (sorted ltb snd true pairs))).
  rewrite <- Hst. unfold top3. fold pairs.
  rewrite <- filter_app, firstn_skipn. reflexivity.
Qed.

Lemma predict_top3_stable_witness :
  filter (fun r : string * float64 => same_key ltb (of_decimal false 25 (-2)) (snd r))
         (sorted ltb snd true (combine (classes_ example_model) example_probs))
  = [("apple", of_decimal false 25 (-2)); ("maize", of_decimal false 25 (-2))].
Proof.
  destruct (predict_top3_stable example_model sample example_probs []
              (of_decimal false 25 (-2))) as [H _].
  - reflexivity.
  - reflexivity.
  - repeat constructor.
  - reflexivity.
  - rewrite H. reflexivity.
Defined.

(** C8. [predict_top3] is deterministic: its result depends on the loaded
    classifier only through the class list and the probabilities it gives
    for the request, so two calls with the same vector against classifiers
    that agree on both return the same list. *)
Theorem predict_top3_deterministic (model model' : Classifier) (user_input : list float64) :
  classes_ model = classes_ model' ->
  (forall df, DataFrame [user_input] Predict.FEATURES = Ok df ->
              predict_proba model df = predict_proba model' df) ->
  Predict.predict_top3 model user_input = Predict.predict_top3 model' user_input.
Proof.
  intros Hc Hp. unfold Predict.predict_top3.
  destruct (DataFrame [user_input] Predict.FEATURES) as [df|e] eqn:E; [|reflexivity].
  cbn [bind]. rewrite (Hp df eq_refl), Hc. reflexivity.
Qed.

Lemma predict_top3_deterministic_witness :
  Predict.predict_top3 example_model sample
  = Predict.predict_top3 example_model_reloaded sample.
Proof.
  apply (predict_top3_deterministic example_model example_model_reloaded sample).
  - reflexivity.
  - intros df _. reflexivity.
Defined.

(** C9. Every pair in the result of [predict_top3] comes from the
    classifier's own pairing: at some index the class list has the pair's
    label and the probability row has the probability whose rounded
    percentage the pair carries, so neither sorting nor cutting to three
    separates a label from its probability; and when the classes are pairwise
    distinct, no label occurs twice in the result. *)
Theorem predict_top3_entries_from_classifier
        (model : Classifier) (user_input : list float64) (recs : list (string * float64)) :
  Predict.predict_top3 model user_input = Ok recs ->
  exists probs more,
    predict_proba model (frame user_input) = Ok (probs :: more)
    /\ Forall (fun r =>
                 exists i prob,
                   nth_error (classes_ model) i = Some (fst r)
                   /\ nth_error probs i = Some prob
                   /\ snd r = round (mul prob (of_Z 100)) 2) recs
    /\ (NoDup (classes_ model) -> NoDup (map fst recs)).
Proof.
  intro H.
  destruct (Nat.eq_dec (List.length user_input) 7) as [Hlen|Hlen].
  2:{ unfold Predict.predict_top3 in H.
      rewrite DataFrame_row_error in H by exact Hlen. discriminate. }
  assert (Hcall : Predict.predict_top3 model user_input
                  = (proba <- predict_proba model (frame user_input) ;;
                     probs <- index0 proba ;;
                     Ok (map as_percentage (top3 (classes_ model) probs)))%py).
  { unfold Predict.predict_top3. rewrite DataFrame_row_ok by exact Hlen. reflexivity. }
  rewrite Hcall in H.
  destruct (predict_proba model (frame user_input)) as [[|probs more]|e]; try discriminate.
  cbn [index0 bind] in H. injection H as <-.
  exists probs, more. split; [reflexivity|].
  split.
  - rewrite Forall_forall. intros r Hin.
    apply in_map_iff in Hin as ([c p] & <- & Hin).
    apply top3_incl, combine_nth_error in Hin as (i & Hi & Hi').
    exists i, p. auto.
  - intro Hnd. rewrite map_map.
    rewrite (map_ext _ fst) by (intros [c p]; reflexivity).
    unfold top3. rewrite <- firstn_map. apply NoDup_firstn.
    apply (Permutation_NoDup (l := map fst (combine (classes_ model) probs))).
    + apply Permutation_map, Permutation_sym, sorted_perm.
    + rewrite combine_fst_firstn. now apply NoDup_firstn.
Qed.

Lemma predict_top3_entries_from_classifier_witness :
  exists probs more,
    predict_proba example_model (frame sample) = Ok (probs :: more)
    /\ Forall (fun r =>
                 exists i prob,
                   nth_error (classes_ example_model) i = Some (fst r)
                   /\ nth_error probs i = Some prob
                   /\ snd r = round (mul prob (of_Z 100)) 2)
              [("banana", hundredths 4000); ("apple", hundredths 2500);
               ("maize", hundredths 2500)]
    /\ (NoDup (classes_ example_model) ->
        NoDup (map fst [("banana", hundredths 4000); ("apple", hundredths 2500);
                        ("maize", hundredths 2500)])).
Proof.
  apply (predict_top3_entries_from_classifier example_model sample).
  vm_compute. reflexivity.
Defined.

(** ** Rejected requests and the exit status *)



(** C4, as the code has it.  When the model loads, the process ends with
    exit status 0 whatever the arguments, having printed one envelope, of
    success or of failure: errors of a request do not reach the exit status.
    When the model does not load, the exit status is 1. *)
Theorem exit_status (load : result Classifier) (argv : list string) :
  snd (main load argv) = match load with Ok _ => 0 | Raise _ => 1 end
  /\ (forall model, load = Ok model ->
      exists doc,
        fst (main load argv) = [doc]
        /\ ((exists recs, doc = success_envelope recs)
            \/ (exists msg, doc = failure_envelope msg))).
Proof.
  destruct load as [model|e]; simpl.
  - destruct (predict_total model (tl argv)) as (doc & Hp & Hd).
    rewrite Hp. split; [reflexivity|].
    intros model' _. exists doc. split; [reflexivity|exact Hd].
  - split; [reflexivity|]. intros model H. discriminate.
Qed.

(** C4 as stated, exit status 0 on a model load failure too, fails: the
    script leaves with status 1. *)
Lemma exit_status_counterexample :
  snd (main (Raise (LibraryError "[Errno 2] No such file or directory: 'crop_model.pkl'"))
            ["predict_wrapper.py"; "90"; "40"; "40"; "25.5"; "75"; "6.8"; "180"]) <> 0.
Proof. simpl. discriminate. Qed.

(** C5. A wrong number of arguments, or an argument [float] does not
    accept, makes [predict] print exactly one document, a failure envelope
    with a message that is not empty, and return normally; the document is
    no success envelope.  For a wrong count the message is the
    [Expected 7 features: ...] text, for a bad argument it is [float]'s
    message naming that argument; with 6 arguments the printed text is
    [{"success": false, "error": "Expected 7 features: ..."}]. *)
Theorem predict_reports_bad_arguments (model : Classifier) (args : list string) :
  List.length args <> 7%nat \/ Exists non_numeric args ->
  exists msg,
    predict model args = ([failure_envelope msg], Ok tt)
    /\ msg <> ""
    /\ (forall recs, failure_envelope msg <> success_envelope recs)
    /\ (List.length args <> 7%nat -> msg = EXPECTED_7)
    /\ (List.length args = 7%nat ->
        exists x, In x args /\ non_numeric x
                  /\ msg = ("could not convert string to float: " ++ repr x)%string)
    /\ (List.length args = 6%nat ->
        forall float_repr,
          map (dumps float_repr) (fst (predict model args)) = [EXPECTED_7_json]).
Proof.
  intro Hbad.
  destruct (bad_arguments_message args Hbad) as (msg & Hp & Hne & H7 & Hx).
  exists msg. repeat split; auto.
  - discriminate.
  - intros H6 float_repr. rewrite Hp, H7 by (rewrite H6; discriminate). reflexivity.
Qed.

Lemma predict_reports_bad_arguments_witness :
  exists msg,
    predict example_model ["90"; "40"; "40"; "25.5"; "75"; "6.8"]
    = ([failure_envelope msg], Ok tt)
    /\ msg = EXPECTED_7.
Proof.
  destruct (predict_reports_bad_arguments example_model
              ["90"; "40"; "40"; "25.5"; "75"; "6.8"])
    as (msg & H1 & _ & _ & H4 & _).
  - left. simpl. discriminate.
  - exists msg. split; [exact H1|]. apply H4. simpl. discriminate.
Defined.

(** C6 on the code: when the model does not load, the script prints the
    object [{"error": "Failed to load model: ..."}] and leaves with status 1.
    The object has no ["success"] member, so it is not the failure envelope
    [{"success": false, "error": ...}] that a failing request prints. *)
Theorem load_failure_envelope (e : exn) (argv : list string) :
  main (Raise e) argv
  = ([JObj [("error", JStr ("Failed to load model: " ++ str_exn e)%string)]], 1)
  /\ get "success" (JObj [("error", JStr ("Failed to load model: " ++ str_exn e)%string)])
     = None
  /\ (forall msg,
         JObj [("error", JStr ("Failed to load model: " ++ str_exn e)%string)]
         <> failure_envelope msg)
  /\ (forall model args msg,
         predict model args = ([failure_envelope msg], Ok tt) ->
         get "success" (failure_envelope msg) = Some (JBool false)
         /\ get "error" (failure_envelope msg) = Some (JStr msg)).
Proof.
  repeat split. intros msg H. discriminate.
Qed.

(** C10. There is a request of exactly 7 arguments, with ["nan"] and ["inf"]
    among them, that [float] accepts in full: no [ValueError] is raised
    before the classifier is called, the frame handed to [predict_proba] has
    a NaN and an infinity in its row, and what is printed is for the
    classifier's answer on that frame to decide: its error in a failure
    envelope, or a success envelope whose entries are pairs of its answer,
    as many as [predict_top3] keeps, and the three best in order when no
    probability of the answer is NaN. *)
Theorem nan_and_inf_reach_classifier :
  exists args inputs,
    List.length args = 7%nat
    /\ In "nan" args /\ In "inf" args
    /\ map_result float args = Ok inputs
    /\ In S754_nan inputs /\ In (S754_infinity false) inputs
    /\ existsb (fun x => negb (is_finite x)) inputs = true
    /\ forall model,
        match predict_proba model (frame inputs) with
        | Ok (probs :: _) =>
            exists recs,
              predict model args = ([success_envelope recs], Ok tt)
              /\ List.length recs
                 = Nat.min 3 (Nat.min (List.length (classes_ model)) (List.length probs))
              /\ Forall (fun r => exists prob,
                             In (fst r, prob) (combine (classes_ model) probs)
                             /\ snd r = round (mul prob (of_Z 100)) 2) recs
              /\ (Forall not_nan probs ->
                  recs = map as_percentage (top3 (classes_ model) probs))
        | Ok [] =>
            predict model args
            = ([failure_envelope "index 0 is out of bounds for axis 0 with size 0"], Ok tt)
        | Raise e => predict model args = ([failure_envelope (str_exn e)], Ok tt)
        end.
Proof.
  exists ["nan"; "40"; "40"; "25.5"; "inf"; "6.8"; "180"].
  eexists. split; [reflexivity|].
  split; [simpl; auto|]. split; [simpl; auto 10|].
  split; [vm_compute; reflexivity|].
  split; [simpl; auto|]. split; [simpl; auto 10|].
  split; [reflexivity|].
  intro model.
  rewrite (predict_parsed model ["nan"; "40"; "40"; "25.5"; "inf"; "6.8"; "180"] _
             eq_refl ltac:(vm_compute; reflexivity)).
  destruct (predict_proba model (frame _)) as [[|probs more]|e]; try reflexivity.
  eexists. split; [reflexivity|].
  split; [now rewrite length_map, top3_length|].
  split; [apply as_percentage_from_pairs|reflexivity].
Qed.

(** * Further properties of the code *)

Lemma StronglySorted_app_inv {A : Type} (R : A -> A -> Prop) (l1 l2 : list A) :
  StronglySorted R (l1 ++ l2) -> forall x y, In x l1 -> In y l2 -> R x y.
Proof.
  induction l1 as [|a l1 IH]; simpl; intros H x y Hx Hy; [contradiction|].
  apply StronglySorted_inv in H as [Hs Ha].
  destruct Hx as [<-|Hx].
  - rewrite Forall_forall in Ha. apply Ha. apply in_or_app. now right.
  - now apply IH.
Qed.

(** X1. The pairs [predict_top3] keeps are the largest: they are three, or
    all of them when the classifier pairs fewer than three; the pairing of
    classes with probabilities splits into the chosen pairs and the rest; and
    no pair left out has a probability above that of a chosen one. *)
Theorem predict_top3_keeps_the_largest
        (model : Classifier) (user_input probs : list float64) (more : list (list float64)) :
  List.length user_input = 7%nat ->
  predict_proba model (frame user_input) = Ok (probs :: more) ->
  Forall not_nan probs ->
  exists chosen rest,
    Predict.predict_top3 model user_input = Ok (map as_percentage chosen)
    /\ List.length chosen
       = Nat.min 3 (Nat.min (List.length (classes_ model)) (List.length probs))
    /\ Permutation (combine (classes_ model) probs) (chosen ++ rest)
    /\ forall t r, In t chosen -> In r rest -> leb (snd r) (snd t) = true.
Proof.
  intros Hlen Hp Hnan.
  set (pairs := combine (classes_ model) probs).
  exists (firstn 3 (sorted ltb snd true pairs)), (skipn 3 (sorted ltb snd true pairs)).
  assert (Hord : Forall (fun r : string * float64 => not_nan (snd r)) pairs)
    by now apply combine_Forall_snd.
  split; [now apply predict_top3_eq with more|].
  split; [apply top3_length|].
  rewrite firstn_skipn. split; [apply Permutation_sym, sorted_perm|].
  intros t r Ht Hr.
  assert (Hin : forall x, In x (sorted ltb snd true pairs) -> not_nan (snd x)).
  { intros x Hx. apply (Permutation_in _ (sorted_perm ltb snd true pairs)) in Hx.
    rewrite Forall_forall in Hord. now apply Hord. }
  apply ltb_false_leb.
  - apply Hin. now apply In_firstn in Ht.
  - apply Hin. rewrite <- (firstn_skipn 3). apply in_or_app. now right.
  - pose proof (sorted_reverse_descending ltb snd not_nan ltb_asym ltb_neg_trans pairs Hord)
      as Hd.
    unfold descending in Hd. rewrite <- (firstn_skipn 3 (sorted ltb snd true pairs)) in Hd.
    exact (StronglySorted_app_inv _ _ _ Hd t r Ht Hr).
Qed.

Lemma predict_top3_keeps_the_largest_witness :
  exists chosen rest,
    Predict.predict_top3 example_model sample = Ok (map as_percentage chosen)
    /\ List.length chosen = 3%nat
    /\ Permutation (combine (classes_ example_model) example_probs) (chosen ++ rest)
    /\ forall t r, In t chosen -> In r rest -> leb (snd r) (snd t) = true.
Proof.
  apply (predict_top3_keeps_the_largest example_model sample example_probs []).
  - reflexivity.
  - reflexivity.
  - repeat constructor.
Defined.

(** X2. The two entry points agree: for seven arguments that [float]
    accepts, the adapter prints the success envelope of exactly the list
    [predict_top3] returns on the parsed values, and when [predict_top3]
    raises, the failure envelope with that exception's message. *)
Theorem predict_agrees_with_predict_top3
        (model : Classifier) (args : list string) (inputs : list float64) :
  List.length args = 7%nat ->
  map_result float args = Ok inputs ->
  predict model args
  = match Predict.predict_top3 model inputs with
    | Ok recs => ([success_envelope recs], Ok tt)
    | Raise e => ([failure_envelope (str_exn e)], Ok tt)
    end.
Proof.
  intros Hlen Hparse.
  rewrite (predict_parsed model args inputs Hlen Hparse).
  assert (Hin : List.length inputs = 7%nat)
    by now rewrite (map_result_length _ _ _ Hparse).
  unfold Predict.predict_top3. rewrite DataFrame_row_ok by exact Hin.
  cbn [bind]. fold (frame inputs).
  destruct (predict_proba model (frame inputs)) as [[|probs more]|e]; reflexivity.
Qed.

Lemma predict_agrees_with_predict_top3_witness :
  predict example_model ["90"; "40"; "40"; "25.5"; "75"; "6.8"; "180"]
  = match Predict.predict_top3 example_model sample with
    | Ok recs => ([success_envelope recs], Ok tt)
    | Raise e => ([failure_envelope (str_exn e)], Ok tt)
    end.
Proof.
  apply (predict_agrees_with_predict_top3 example_model
           ["90"; "40"; "40"; "25.5"; "75"; "6.8"; "180"] sample).
  - reflexivity.
  - vm_compute. reflexivity.
Defined.

(** X3. [predict_top3] catches nothing, and raises in three cases only: a
    vector whose length is not 7 ([ValueError] naming the number of values
    passed), an exception of [predict_proba] (handed on as it is), and a
    probability matrix with no row (the error of indexing row 0). *)
Theorem predict_top3_raises (model : Classifier) (user_input : list float64) (e : exn) :
  Predict.predict_top3 model user_input = Raise e
  <-> (List.length user_input <> 7%nat
       /\ e = ValueError ("7 columns passed, passed data had "
                            ++ str_of_nat (List.length user_input) ++ " columns")%string)
      \/ (List.length user_input = 7%nat
          /\ predict_proba model (frame user_input) = Raise e)
      \/ (List.length user_input = 7%nat
          /\ predict_proba model (frame user_input) = Ok []
          /\ e = LibraryError "index 0 is out of bounds for axis 0 with size 0").
Proof.
  unfold Predict.predict_top3.
  destruct (Nat.eq_dec (List.length user_input) 7) as [Hlen|Hlen].
  - rewrite DataFrame_row_ok by exact Hlen. cbn [bind]. fold (frame user_input).
    destruct (predict_proba model (frame user_input)) as [[|probs more]|e']; cbn [bind index0].
    + split.
      * intro H. injection H as <-. right; right. auto.
      * intros [[H _]|[[_ H]|(_ & _ & ->)]]; try contradiction; try discriminate.
        reflexivity.
    + split; [discriminate|].
      intros [[H _]|[[_ H]|(_ & H & _)]]; try contradiction; discriminate.
    + split.
      * intro H. injection H as <-. right; left. auto.
      * intros [[H _]|[[_ H]|(_ & H & _)]]; try contradiction; try discriminate.
        now injection H as <-.
  - rewrite DataFrame_row_error by exact Hlen. cbn [bind]. split.
    + intro H. injection H as <-. left. split; auto.
    + intros [[_ ->]|[[H _]|(H & _)]]; try contradiction. reflexivity.
Qed.

(** X4. Whatever the outcome of the model load and whatever the arguments,
    the script prints exactly one JSON object: a success envelope, or an
    object with a string under ["error"], no ["recommendations"] and no
    ["success"] set to true. *)
Theorem main_prints_one_object (load : result Classifier) (argv : list string) :
  exists members,
    fst (main load argv) = [JObj members]
    /\ ((exists recs, JObj members = success_envelope recs)
        \/ (exists msg, member "error" members = Some (JStr msg)
                        /\ member "recommendations" members = None
                        /\ member "success" members <> Some (JBool true))).
Proof.
  destruct load as [model|e]; cbn [main].
  - destruct (predict_total model (tl argv)) as (doc & Hp & [[recs ->]|[msg ->]]);
      rewrite Hp; cbn [fst].
    + eexists. split; [reflexivity|]. left. now exists recs.
    + eexists. split; [reflexivity|]. right. exists msg.
      repeat split. discriminate.
  - eexists. split; [reflexivity|]. right. eexists. repeat split. discriminate.
Qed.

Lemma map_injective {A B : Type} (f : A -> B) (l l' : list A) :
  (forall a a', f a = f a' -> a = a') -> map f l = map f l' -> l = l'.
Proof.
  intro Hf. revert l'; induction l as [|a l IH]; intros [|a' l'] H; simpl in H;
    try discriminate; auto.
  injection H as Ha Hl. f_equal; auto.
Qed.

Lemma recommendations_injective (recs recs' : list (string * float64)) :
  map (fun r : string * float64 =>
         JObj [("crop", JStr (fst r)); ("probability", JNum (snd r))]) recs
  = map (fun r : string * float64 =>
           JObj [("crop", JStr (fst r)); ("probability", JNum (snd r))]) recs' ->
  recs = recs'.
Proof.
  apply map_injective.
  intros [c p] [c' p'] Hr. cbn [fst snd] in Hr. now injection Hr as -> ->.
Qed.

(** X5. A success envelope is printed only for exactly seven arguments that
    [float] accepts and a classifier that answers with a probability row; it
    then lists at most three recommendations, each labelled by a class of the
    classifier and carrying the rounded percentage of a probability paired
    with that class; when no probability of the row is NaN they are the
    three best in order. *)
Theorem success_needs_seven_numbers
        (model : Classifier) (args : list string) (recs : list (string * float64)) :
  predict model args = ([success_envelope recs], Ok tt) ->
  List.length args = 7%nat
  /\ (exists inputs probs more,
         map_result float args = Ok inputs
         /\ predict_proba model (frame inputs) = Ok (probs :: more)
         /\ Forall (fun r => exists prob,
                        In (fst r, prob) (combine (classes_ model) probs)
                        /\ snd r = round (mul prob (of_Z 100)) 2) recs
         /\ (Forall not_nan probs ->
             recs = map as_percentage (top3 (classes_ model) probs)))
  /\ (List.length recs <= 3)%nat
  /\ Forall (fun r => In (fst r) (classes_ model)) recs.
Proof.
  intro H.
  destruct (Nat.eq_dec (List.length args) 7) as [Hlen|Hlen].
  2:{ rewrite (predict_wrong_count model args Hlen) in H. discriminate. }
  destruct (map_result float args) as [inputs|e] eqn:Hparse.
  2:{ rewrite (predict_unparsed model args e Hlen Hparse) in H. discriminate. }
  rewrite (predict_parsed model args inputs Hlen Hparse) in H.
  destruct (predict_proba model (frame inputs)) as [[|probs more]|e] eqn:Hp;
    try discriminate.
  injection H as H. apply recommendations_injective in H. subst recs.
  split; [exact Hlen|]. split.
  { exists inputs, probs, more. repeat split; auto. apply as_percentage_from_pairs. }
  rewrite length_map, top3_length. split; [lia|].
  rewrite Forall_forall. intros r Hr.
  apply in_map_iff in Hr as ([c p] & <- & Hr).
  apply top3_incl, in_combine_l in Hr. exact Hr.
Qed.

Lemma success_needs_seven_numbers_witness :
  (List.length
     [("banana", hundredths 4000); ("apple", hundredths 2500); ("maize", hundredths 2500)]
   <= 3)%nat.
Proof.
  apply (success_needs_seven_numbers example_model
           ["90"; "40"; "40"; "25.5"; "75"; "6.8"; "180"]).
  vm_compute. reflexivity.
Defined.

Lemma map_result_first_failure {A B : Type} (f : A -> result B)
      (good : list A) (x : A) (rest : list A) (e : exn) :
  Forall (fun a => exists b, f a = Ok b) good -> f x = Raise e ->
  map_result f (good ++ x :: rest) = Raise e.
Proof.
  intros Hg Hx. induction Hg as [|a good (b & Hb) Hg IH]; simpl.
  - now rewrite Hx.
  - now rewrite Hb, IH.
Qed.

(** X6. Of seven arguments, the first one [float] does not accept is the
    one the failure envelope names, whatever follows it. *)
Theorem predict_names_first_bad_argument
        (model : Classifier) (good : list string) (x : string) (rest : list string) :
  List.length (good ++ x :: rest) = 7%nat ->
  Forall (fun a => exists v, float a = Ok v) good ->
  non_numeric x ->
  predict model (good ++ x :: rest)
  = ([failure_envelope ("could not convert string to float: " ++ repr x)%string], Ok tt).
Proof.
  intros Hlen Hgood (e & He).
  pose proof (float_raise x e He) as Ee.
  rewrite (predict_unparsed model _ e Hlen (map_result_first_failure _ _ _ _ _ Hgood He)).
  now rewrite Ee.
Qed.

Lemma predict_names_first_bad_argument_witness :
  predict example_model (["90"; "40"] ++ "4o" :: ["x"; "75"; "6.8"; "180"])
  = ([failure_envelope "could not convert string to float: '4o'"], Ok tt).
Proof.
  apply (predict_names_first_bad_argument example_model ["90"; "40"] "4o"
           ["x"; "75"; "6.8"; "180"]).
  - reflexivity.
  - repeat constructor; eexists; vm_compute; reflexivity.
  - eexists. vm_compute. reflexivity.
Defined.

Lemma filter_all {A : Type} (f : A -> bool) (l : list A) :
  (forall x, In x l -> f x = true) -> filter f l = l.
Proof.
  induction l as [|a l IH]; simpl; intro H; auto.
  rewrite H by auto. f_equal. apply IH. auto.
Qed.

(** X7. When every class has the same probability, [predict_top3] returns
    the first three classes in the classifier's own order. *)
Theorem all_tied_keeps_class_order
        (model : Classifier) (user_input probs : list float64) (more : list (list float64))
        (p : float64) :
  List.length user_input = 7%nat ->
  predict_proba model (frame user_input) = Ok (probs :: more) ->
  not_nan p ->
  Forall (fun q => not_nan q /\ same_key ltb p q = true) probs ->
  Predict.predict_top3 model user_input
  = Ok (map as_percentage (firstn 3 (combine (classes_ model) probs))).
Proof.
  intros Hlen Hp Hpn Hall.
  rewrite (predict_top3_eq model user_input probs more Hlen Hp).
  do 2 f_equal. unfold top3. f_equal.
  set (pairs := combine (classes_ model) probs).
  set (tied := fun r : string * float64 => same_key ltb p (snd r)).
  assert (Htied : forall r, In r pairs -> tied r = true).
  { intros [c q] Hr. apply in_combine_r in Hr.
    rewrite Forall_forall in Hall. now apply Hall. }
  assert (Hst : filter tied (sorted ltb snd true pairs) = filter tied pairs).
  { apply (sorted_stable ltb snd not_nan ltb_asym ltb_neg_trans); auto.
    apply combine_Forall_snd.
    eapply Forall_impl; [|exact Hall]. now intros q [Hq _]. }
  rewrite !filter_all in Hst; auto.
  intros r Hr. apply Htied.
  now apply (Permutation_in _ (sorted_perm ltb snd true pairs)) in Hr.
Qed.

Lemma all_tied_keeps_class_order_witness :
  Predict.predict_top3
    {| classes_ := ["apple"; "banana"; "rice"; "maize"];
       predict_proba := fun _ => Ok [repeat (of_decimal false 25 (-2)) 4] |} sample
  = Ok [("apple", hundredths 2500); ("banana", hundredths 2500); ("rice", hundredths 2500)].
Proof.
  apply (all_tied_keeps_class_order
           {| classes_ := ["apple"; "banana"; "rice"; "maize"];
              predict_proba := fun _ => Ok [repeat (of_decimal false 25 (-2)) 4] |}
           sample (repeat (of_decimal false 25 (-2)) 4) [] (of_decimal false 25 (-2))).
  - reflexivity.
  - reflexivity.
  - reflexivity.
  - repeat constructor.
Defined.

Lemma list_ascii_of_string_app (a b : string) :
  list_ascii_of_string (a ++ b) = list_ascii_of_string a ++ list_ascii_of_string b.
Proof. induction a as [|c a IH]; simpl; [reflexivity|now rewrite IH]. Qed.

Lemma printable_ascii_app (a b : string) :
  printable_ascii (a ++ b) = printable_ascii a && printable_ascii b.
Proof. unfold printable_ascii. now rewrite list_ascii_of_string_app, forallb_app. Qed.

Lemma json_char_printable (c : ascii) :
  forallb (fun c => (32 <=? ord c) && (ord c <? 127)) (json_char c) = true.
Proof. destruct c as [[] [] [] [] [] [] [] []]; vm_compute; reflexivity. Qed.

Lemma json_string_printable (s : string) : printable_ascii (json_string s) = true.
Proof.
  unfold printable_ascii, json_string.
  rewrite list_ascii_of_string_of_list_ascii.
  cbn [forallb]. rewrite forallb_app. cbn [forallb].
  replace (forallb _ (flat_map json_char (list_ascii_of_string s))) with true; [reflexivity|].
  symmetry. induction (list_ascii_of_string s) as [|c l IH]; simpl; auto.
  now rewrite forallb_app, json_char_printable, IH.
Qed.

Lemma join_printable (l : list string) :
  Forall (fun s => printable_ascii s = true) l -> printable_ascii (join ", " l) = true.
Proof.
  induction 1 as [|s l Hs Hl IH]; [reflexivity|].
  destruct l as [|s' l]; [exact Hs|].
  change (join ", " (s :: s' :: l)) with (s ++ ", " ++ join ", " (s' :: l))%string.
  now rewrite !printable_ascii_app, Hs, IH.
Qed.

Section DumpsPrintable.

Variable float_repr : float64 -> string.
Hypothesis float_repr_printable : forall x, printable_ascii (float_repr x) = true.

Lemma json_number_printable (x : float64) :
  printable_ascii (json_number float_repr x) = true.
Proof. destruct x as [s|[|]| |s m e]; try reflexivity; apply float_repr_printable. Qed.

Lemma dumps_printable (v : json) : printable_ascii (dumps float_repr v) = true.
Proof.
  revert v. fix IH 1. intros [b|x|s|items|members]; cbn [dumps].
  - destruct b; reflexivity.
  - apply json_number_printable.
  - apply json_string_printable.
  - rewrite !printable_ascii_app, join_printable; [reflexivity|].
    induction items as [|v items IHl]; constructor; auto.
  - rewrite !printable_ascii_app, join_printable; [reflexivity|].
    induction members as [|[k v] members IHl]; constructor; auto.
    cbn [fst snd]. now rewrite !printable_ascii_app, json_string_printable, IH.
Qed.

End DumpsPrintable.

(** X8. The text [json.dumps] gives every document the script prints is
    made of printable ASCII characters only, so it holds no line break,
    provided [float.__repr__] gives such text for numbers: quotes,
    backslashes, control characters and code points from 127 on in labels and
    messages are escaped. *)
Theorem main_prints_printable_ascii
        (float_repr : float64 -> string) (load : result Classifier) (argv : list string) :
  (forall x, printable_ascii (float_repr x) = true) ->
  Forall (fun doc => printable_ascii (dumps float_repr doc) = true) (fst (main load argv)).
Proof.
  intro H. rewrite Forall_forall. intros doc _. now apply dumps_printable.
Qed.

Lemma main_prints_printable_ascii_witness :
  Forall (fun doc => printable_ascii (dumps (fun _ => "0.0") doc) = true)
         (fst (main (Ok example_model)
                    ["predict_wrapper.py"; "90"; "40"; "40"; "25.5"; "75"; "6.8"; "180"])).
Proof.
  apply (main_prints_printable_ascii (fun _ => "0.0")).
  intro x. reflexivity.
Defined.

Lemma shr_1_nonneg (mrs : shr_record) : 0 <= shr_m mrs -> 0 <= shr_m (shr_1 mrs).
Proof.
  destruct mrs as [m r s]. destruct m as [|[p|p|]|p]; simpl; lia.
Qed.

Lemma shr_nonneg (mrs : shr_record) (e n : Z) :
  0 <= shr_m mrs -> 0 <= shr_m (fst (shr mrs e n)).
Proof.
  intro H. unfold shr. destruct n as [|p|p]; auto. cbn [fst].
  rewrite iter_pos_nat. induction (Pos.to_nat p) as [|k IH]; auto.
  rewrite Nat.iter_succ. now apply shr_1_nonneg.
Qed.

Lemma shr_record_of_loc_m (m : Z) (l : location) : shr_m (shr_record_of_loc m l) = m.
Proof. destruct l as [|[| |]]; reflexivity. Qed.

Lemma round_nearest_even_nonneg (m : Z) (l : location) :
  0 <= m -> 0 <= round_nearest_even m l.
Proof. destruct l as [|[| |]]; simpl; try lia. destruct (Z.even m); lia. Qed.

Lemma binary_round_aux_not_nan (s : bool) (m e : Z) (l : location) :
  0 <= m -> is_nan (binary_round_aux prec emax s m e l) = false.
Proof.
  intro Hm. unfold binary_round_aux, shr_fexp.
  pose proof (shr_nonneg (shr_record_of_loc m l) e
                (fexp prec emax (Zdigits2 m + e) - e)) as H1.
  rewrite shr_record_of_loc_m in H1. specialize (H1 Hm).
  destruct (shr (shr_record_of_loc m l) e _) as [mrs' e']. cbn [fst] in H1.
  pose proof (round_nearest_even_nonneg (shr_m mrs') (loc_of_shr_record mrs') H1) as H2.
  set (R := round_nearest_even (shr_m mrs') (loc_of_shr_record mrs')) in *.
  pose proof (shr_nonneg (shr_record_of_loc R loc_Exact) e'
                (fexp prec emax (Zdigits2 R + e') - e')) as H3.
  rewrite shr_record_of_loc_m in H3. specialize (H3 H2).
  destruct (shr (shr_record_of_loc R loc_Exact) e' _) as [mrs'' e'']. cbn [fst] in H3.
  destruct (shr_m mrs'') as [|p|p]; try lia; try reflexivity.
  destruct (e'' <=? emax - prec); reflexivity.
Qed.

Lemma binary_normalize_not_nan (m e : Z) (s : bool) :
  is_nan (binary_normalize prec emax m e s) = false.
Proof.
  destruct m as [|p|p]; [reflexivity| |]; unfold binary_normalize, binary_round;
    destruct (shl_align _ _ _) as [mz ez]; apply binary_round_aux_not_nan; lia.
Qed.

Lemma of_decimal_not_nan (s : bool) (m x : Z) : is_nan (of_decimal s m x) = false.
Proof.
  unfold of_decimal. destruct m as [|p|p]; try reflexivity.
  destruct (0 <=? x); [apply binary_normalize_not_nan|].
  unfold SFdiv_core_binary.
  set (m' := match _ - _ - _ with Z.pos _ => _ | 0 => _ | Z.neg _ => 0 end).
  assert (Hm' : 0 <= m').
  { unfold m'. destruct (_ - _ - _); try lia. apply Z.shiftl_nonneg. lia. }
  destruct (Z.leb_spec x 0) as [Hx|Hx].
  - assert (Hpow : 0 < 10 ^ (- x)) by (apply Z.pow_pos_nonneg; lia).
    pose proof (Z_div_mod m' (10 ^ (- x)) ltac:(lia)) as Hdm.
    destruct (Z.div_eucl m' (10 ^ (- x))) as [q r].
    apply binary_round_aux_not_nan. nia.
  - rewrite Z.pow_neg_r by lia.
    destruct m'; simpl; apply binary_round_aux_not_nan; lia.
Qed.

(** X9. [float] returns a NaN only for a text that, stripped of blanks and
    sign, spells [nan] in some case: no decimal literal gives one. *)
Theorem float_nan_only_from_nan_literal (s : string) (v : float64) :
  float s = Ok v -> is_nan v = true ->
  exists l,
    drop_underscores "000"%char (transform_decimal_and_space (list_ascii_of_string s)) = Some l
    /\ lower (snd (split_sign (strip l))) = "nan".
Proof.
  unfold float. intros H Hnan.
  destruct (drop_underscores _ _) as [l|]; [|discriminate].
  exists l. split; [reflexivity|].
  destruct (string_to_double (strip l)) as [x|] eqn:E; [|discriminate].
  injection H as ->. unfold string_to_double in E.
  destruct (split_sign (strip l)) as [neg body]. cbn [snd].
  destruct (String.eqb (lower body) "inf" || String.eqb (lower body) "infinity").
  { injection E as <-. discriminate. }
  destruct (String.eqb_spec (lower body) "nan") as [Hb|Hb]; [exact Hb|].
  destruct (span_digits body) as [ip r].
  destruct (match r with "."%char :: r1 => span_digits r1 | _ => ([], r) end) as [fp r'].
  destruct (ip ++ fp); [discriminate|].
  destruct (parse_exponent r'); [|discriminate].
  injection E as <-. now rewrite of_decimal_not_nan in Hnan.
Qed.

Lemma float_nan_only_from_nan_literal_witness :
  exists l,
    drop_underscores "000"%char (transform_decimal_and_space (list_ascii_of_string " -NaN "))
    = Some l
    /\ lower (snd (split_sign (strip l))) = "nan".
Proof.
  apply (float_nan_only_from_nan_literal " -NaN " S754_nan); reflexivity.
Defined.

(** X10. [round(prob * 100, 2)] rounds to the nearest hundredth and not
    down: for a probability, the number [k] of hundredths of the percentage is
    an integer nearest to the scaled value [prob * 100 * 100 = m * 2^e] held
    in binary64, the even one of the two when it lies half way. *)
Theorem percentage_is_nearest_hundredth (p : float64) :
  is_probability p ->
  exists k,
    0 <= k <= 10000
    /\ eqb (round (mul p (of_Z 100)) 2) (div (of_Z k) (of_Z 100)) = true
    /\ match mul (mul p (of_Z 100)) (of_Z 100) with
       | S754_finite false m e => e < 0 /\ nearest_even (Z.pos m) (2 ^ (- e)) k
       | S754_zero _ => k = 0
       | _ => False
       end.
Proof.
  intro Hp. destruct (percentage_hundredths p Hp) as [Hk He].
  destruct (scaled_probability p Hp) as (V & N & H).
  exists (nearest_int (mul (mul p (of_Z 100)) (of_Z 100))).
  split; [exact Hk|]. split; [exact He|].
  destruct (mul (mul p (of_Z 100)) (of_Z 100)) as [s|[|]| |[|] m e];
    try contradiction; try discriminate; try reflexivity.
  rewrite of_Z_10000 in H. apply leb_finite_pos in H.
  split; [lia|]. apply rne_nearest; lia.
Qed.

Lemma percentage_is_nearest_hundredth_witness :
  exists k,
    0 <= k <= 10000
    /\ eqb (round (mul (of_decimal false 12345 (-5)) (of_Z 100)) 2)
           (div (of_Z k) (of_Z 100)) = true.
Proof.
  destruct (percentage_is_nearest_hundredth (of_decimal false 12345 (-5)))
    as (k & Hk & He & _).
  - repeat split.
  - exists k. auto.
Defined.

(** X11. [round(prob * 100, 2)] never inverts an order: of two
    probabilities, the smaller has the smaller or the same percentage. *)
Theorem percentage_keeps_order (p q : float64) :
  is_probability p -> is_probability q ->
  leb p q = true ->
  leb (round (mul p (of_Z 100)) 2) (round (mul q (of_Z 100)) 2) = true.
Proof. exact (percentage_mono p q). Qed.

Lemma percentage_keeps_order_witness :
  leb (round (mul (of_decimal false 33333 (-5)) (of_Z 100)) 2)
      (round (mul (of_decimal false 33334 (-5)) (of_Z 100)) 2) = true.
Proof.
  apply (percentage_keeps_order (of_decimal false 33333 (-5)) (of_decimal false 33334 (-5))).
  - repeat split.
  - repeat split.
  - reflexivity.
Defined.
